(** * 20_llm_large_language_model: text preprocessing and the decode loop

    A shallow embedding of [preprocess_text] and [generate_text] from
    [20_llm_large_language_model.ipynb].

    - Python integers are [Z]; lists are [list]; a [dict] is an association
      list in insertion order with unique keys (the order matters for
      [Counter.most_common] and for the inverse vocabulary).
    - Python's slices, [range], list repetition and [str.join] are written
      out with the behaviour CPython gives them for negative and
      out-of-range indices.
    - NumPy arrays of floats are lists of real numbers: rounding, overflow
      and NaN are not modelled.  A Python exception is [None].
    - NLTK's [word_tokenize], [str.lower] and the trained Keras model are
      parameters of the development. *)

From Stdlib Require Import ZArith List String Ascii Bool Lia Reals Lra.
From Stdlib Require Import Permutation Sorted.
Import ListNotations.

Local Open Scope Z_scope.

(** ** Python primitives *)

Module Py.

Section Lists.
Context {A : Type}.

(** [len(l)] *)
Definition len (l : list A) : Z := Z.of_nat (List.length l).

(** Index adjustment of a slice bound (CPython's [PySlice_AdjustIndices]
    for step 1): a negative bound counts from the end, then the bound is
    clamped to [0 .. len]. *)
Definition adjust_index (n i : Z) : Z :=
  if i <? 0 then Z.max (i + n) 0 else Z.min i n.

(** [l[start:stop]]; [None] is an omitted bound. *)
Definition slice (l : list A) (start stop : option Z) : list A :=
  let n := len l in
  let a := match start with None => 0 | Some i => adjust_index n i end in
  let b := match stop with None => n | Some j => adjust_index n j end in
  firstn (Z.to_nat (b - a)) (skipn (Z.to_nat a) l).

(** [[x] * n]: empty when [n <= 0]. *)
Definition replicate (x : A) (n : Z) : list A := repeat x (Z.to_nat n).

(** [enumerate(l)] *)
Fixpoint enumerate_from (i : Z) (l : list A) : list (Z * A) :=
  match l with
  | [] => []
  | x :: l' => (i, x) :: enumerate_from (i + 1) l'
  end.

Definition enumerate (l : list A) : list (Z * A) := enumerate_from 0 l.

(** [l[-1]]: an [IndexError] on the empty list. *)
Definition last_item (l : list A) : option A :=
  match l with
  | [] => None
  | x :: l' => Some (last l' x)
  end.
End Lists.

(** [range(start, stop, step)]; a zero step raises [ValueError]. *)
Definition range_len (start stop step : Z) : Z :=
  if (0 <? step) && (start <? stop) then 1 + (stop - 1 - start) / step
  else if (step <? 0) && (stop <? start) then 1 + (start - 1 - stop) / (- step)
  else 0.

Definition range (start stop step : Z) : option (list Z) :=
  if step =? 0 then None
  else Some (map (fun k => start + Z.of_nat k * step)
                 (seq 0 (Z.to_nat (range_len start stop step)))).

(** A [dict]: association list, keys unique, in insertion order. *)
Definition dict (K V : Type) : Type := list (K * V).

Section Dict.
Context {K V : Type}.
Variable eqb : K -> K -> bool.

Fixpoint lookup (d : dict K V) (k : K) : option V :=
  match d with
  | [] => None
  | (k', v) :: d' => if eqb k' k then Some v else lookup d' k
  end.

(** [d.get(k, default)] *)
Definition get (d : dict K V) (k : K) (default : V) : V :=
  match lookup d k with
  | Some v => v
  | None => default
  end.

(** [d[k] = v]: an existing key keeps its place, a new key goes last. *)
Fixpoint set (d : dict K V) (k : K) (v : V) : dict K V :=
  match d with
  | [] => [(k, v)]
  | (k', v') :: d' =>
      if eqb k' k then (k', v) :: d' else (k', v') :: set d' k v
  end.

(** [d.items()] *)
Definition items (d : dict K V) : list (K * V) := d.

Definition keys (d : dict K V) : list K := map fst d.
Definition values (d : dict K V) : list V := map snd d.
End Dict.

(** [sep.join(l)] *)
Fixpoint join (sep : string) (l : list string) : string :=
  match l with
  | [] => EmptyString
  | [w] => w
  | w :: l' => (w ++ sep ++ join sep l')%string
  end.

(** [collections.Counter(l)]: counts in first-seen order. *)
Fixpoint bump (d : dict string Z) (w : string) : dict string Z :=
  match d with
  | [] => [(w, 1)]
  | (w', c) :: d' =>
      if String.eqb w' w then (w', c + 1) :: d' else (w', c) :: bump d' w
  end.

Definition Counter (l : list string) : dict string Z := fold_left bump l [].

(** [sorted(items, key=count, reverse=True)]: stable, so equal counts keep
    their first-seen order. *)
Fixpoint insert_desc (x : string * Z) (l : list (string * Z))
  : list (string * Z) :=
  match l with
  | [] => [x]
  | y :: l' => if snd x <? snd y then y :: insert_desc x l' else x :: y :: l'
  end.

Definition sorted_desc (l : list (string * Z)) : list (string * Z) :=
  fold_right insert_desc [] l.

(** [Counter.most_common(n)] for an integer [n], that is
    [heapq.nlargest(n, items, key=count)]: nothing when [n <= 0]. *)
Definition most_common (c : dict string Z) (n : Z) : list (string * Z) :=
  if n <=? 0 then [] else firstn (Z.to_nat n) (sorted_desc (items c)).

End Py.

(** ** NumPy on real-valued arrays *)

Module Np.

Local Open Scope R_scope.

(** A model output for one input window: one row per position, one real per
    vocabulary entry (the batch axis has size one). *)
Definition tensor : Type := list (list R).

Definition map2d (f : R -> R) (t : tensor) : tensor := map (map f) t.

(** [np.sum(t)] over all axes *)
Definition sum (t : tensor) : R :=
  fold_right Rplus 0 (map (fold_right Rplus 0) t).

(** [np.argmax(row)]: index of the first greatest entry; [ValueError] on an
    empty row. *)
Fixpoint argmax_from (best_i : nat) (best : R) (i : nat) (l : list R) : nat :=
  match l with
  | [] => best_i
  | x :: l' =>
      if Rlt_dec best x then argmax_from i x (S i) l'
      else argmax_from best_i best (S i) l'
  end.

Definition argmax (row : list R) : option Z :=
  match row with
  | [] => None
  | x :: l => Some (Z.of_nat (argmax_from 0 x 1 l))
  end.

End Np.

(** ** The notebook's functions *)

Definition PAD : string := "<PAD>".

(** The additive floor [1e-10]. *)
Definition log_floor : R := (/ 10 ^ 10)%R.

Section Notebook.

(** [nltk.tokenize.word_tokenize] *)
Variable word_tokenize : string -> list string.
(** [str.lower] *)
Variable lower : string -> string.

(** *** preprocess_text *)

Definition all_tokens_of (texts : list string) : list string :=
  flat_map (fun text => word_tokenize (lower text)) texts.

Definition build_vocab (all_tokens : list string) (vocab_size : Z)
  : Py.dict string Z :=
  let word_counts := Py.Counter all_tokens in
  let most_common_words :=
    map fst (Py.most_common word_counts (vocab_size - 1)) in
  let vocab :=
    fold_left (fun d iw => Py.set String.eqb d (snd iw) (fst iw + 1))
              (Py.enumerate most_common_words) [] in
  Py.set String.eqb vocab PAD 0.

Definition windows (token_ids : list Z) (seq_length : Z)
  : option (list (list Z)) :=
  match Py.range 0 (Py.len token_ids - seq_length) seq_length with
  | None => None
  | Some starts =>
      Some (map (fun i => Py.slice token_ids (Some i) (Some (i + seq_length)))
                starts)
  end.

Definition pad_sequence (seq_length : Z) (seq : list Z) : list Z :=
  seq ++ Py.replicate 0 (seq_length - Py.len seq).

Definition preprocess_text (texts : list string)
           (vocab_size seq_length max_sequences : Z)
  : option (list (list Z) * Py.dict string Z) :=
  let all_tokens := all_tokens_of texts in
  let vocab := build_vocab all_tokens vocab_size in
  let token_ids := map (fun token => Py.get String.eqb vocab token 0)
                       all_tokens in
  match windows token_ids seq_length with
  | None => None
  | Some sequences =>
      let sequences := Py.slice sequences None (Some max_sequences) in
      let sequences := map (pad_sequence seq_length) sequences in
      Some (sequences, vocab)
  end.

(** *** generate_text *)

(** [model.predict(np.array([window]), verbose=0)[0]] *)
Variable model : list Z -> Np.tensor.

Definition inv_vocab (vocab : Py.dict string Z) : Py.dict Z string :=
  fold_left (fun d kv => Py.set Z.eqb d (snd kv) (fst kv))
            (Py.items vocab) [].

Definition seed_tokens (vocab : Py.dict string Z) (seed_text : string)
  : list Z :=
  map (fun word => Py.get String.eqb vocab word 0)
      (word_tokenize (lower seed_text)).

Definition initial_tokens (vocab : Py.dict string Z) (seed_text : string)
           (seq_length : Z) : list Z :=
  let tokens := seed_tokens vocab seed_text in
  Py.slice tokens None (Some (seq_length - 1))
    ++ Py.replicate 0 (seq_length - 1 - Py.len tokens).

(** [tokens[-(seq_length - 1):]] *)
Definition input_seq (seq_length : Z) (tokens : list Z) : list Z :=
  Py.slice tokens (Some (- (seq_length - 1))) None.

(** [np.log(pred + 1e-10) / temperature] *)
Definition log_args (pred : Np.tensor) : Np.tensor :=
  Np.map2d (fun p => (p + log_floor)%R) pred.

Definition scaled_log (temperature : R) (pred : Np.tensor) : Np.tensor :=
  Np.map2d (fun x => (ln x / temperature)%R) (log_args pred).

(** [np.exp(pred) / np.sum(np.exp(pred))] *)
Definition softmax (pred : Np.tensor) : Np.tensor :=
  let e := Np.map2d exp pred in
  Np.map2d (fun x => (x / Np.sum e)%R) e.

Definition rescale (temperature : R) (pred : Np.tensor) : Np.tensor :=
  softmax (scaled_log temperature pred).

(** [np.argmax(pred[0, -1])] after the rescaling *)
Definition next_token (temperature : R) (pred : Np.tensor) : option Z :=
  match Py.last_item (rescale temperature pred) with
  | None => None
  | Some row => Np.argmax row
  end.

(** One pass through the body of the [for] loop. *)
Definition decode_step (seq_length : Z) (temperature : R) (tokens : list Z)
  : option (list Z) :=
  match next_token temperature (model (input_seq seq_length tokens)) with
  | None => None
  | Some next => Some (tokens ++ [next])
  end.

(** [for _ in range(length)] *)
Fixpoint decode_loop (n : nat) (seq_length : Z) (temperature : R)
         (tokens : list Z) : option (list Z) :=
  match n with
  | O => Some tokens
  | S n' =>
      match decode_step seq_length temperature tokens with
      | None => None
      | Some tokens' => decode_loop n' seq_length temperature tokens'
      end
  end.

Definition render (vocab : Py.dict string Z) (tokens : list Z)
  : list string :=
  let inv := inv_vocab vocab in
  map (fun t => Py.get Z.eqb inv t PAD) tokens.

Definition generate_text (vocab : Py.dict string Z) (seed_text : string)
           (seq_length length : Z) (temperature : R) : option string :=
  match decode_loop (Z.to_nat length) seq_length temperature
                    (initial_tokens vocab seed_text seq_length) with
  | None => None
  | Some tokens => Some (Py.join " " (render vocab tokens))
  end.

End Notebook.

(** The shape [generate_text] needs from the model: the output has a last
    position, and that position has at least one vocabulary entry. *)
Definition well_shaped (model : list Z -> Np.tensor) : Prop :=
  forall window, exists row,
    Py.last_item (model window) = Some row /\ row <> [].

(** What the temperature transform does to one entry [p], given the
    normalising sum [s]. *)
Definition rescale_entry (temperature s p : R) : R :=
  (exp (ln (p + log_floor) / temperature) / s)%R.

(** The normalising sum [np.sum(np.exp(pred))] of the transform. *)
Definition normaliser (temperature : R) (pred : Np.tensor) : R :=
  Np.sum (Np.map2d exp (scaled_log temperature pred)).

(** The [k]-th full window of [seq_length] identifiers. *)
Definition chunk (seq_length : Z) (token_ids : list Z) (k : nat) : list Z :=
  firstn (Z.to_nat seq_length) (skipn (k * Z.to_nat seq_length) token_ids).

(** How many window starts [range(0, n - seq_length, seq_length)] has. *)
Definition window_count (n seq_length : Z) : nat :=
  Z.to_nat (Py.range_len 0 (n - seq_length) seq_length).

(** The last [k] items of a list, as the specification words it. *)
Definition trailing {A : Type} (k : Z) (l : list A) : list A :=
  skipn (List.length l - Z.to_nat k) l.

(** The first [k] items of a list. *)
Definition leading {A : Type} (k : Z) (l : list A) : list A :=
  firstn (Z.to_nat k) l.

(** ** Sample instances of the parameters, for the worked examples *)

Module Sample.

Definition is_space (c : ascii) : bool := Ascii.eqb c " "%char.

(** Whitespace tokenizer: maximal runs of non-space characters. *)
Fixpoint split_from (cur : string) (s : string) : list string :=
  match s with
  | EmptyString =>
      match cur with EmptyString => [] | _ => [cur] end
  | String c s' =>
      if is_space c then
        match cur with
        | EmptyString => split_from EmptyString s'
        | _ => cur :: split_from EmptyString s'
        end
      else split_from (cur ++ String c EmptyString)%string s'
  end.

Definition word_tokenize (s : string) : list string :=
  split_from EmptyString s.

Definition lower_ascii (c : ascii) : ascii :=
  let n := nat_of_ascii c in
  if ((65 <=? n) && (n <=? 90))%nat then ascii_of_nat (n + 32) else c.

Fixpoint lower (s : string) : string :=
  match s with
  | EmptyString => EmptyString
  | String c s' => String (lower_ascii c) (lower s')
  end.

(** A model that always predicts the same two-way distribution. *)
Definition model (_ : list Z) : Np.tensor := [[0; 1]]%R.

Definition vocab : Py.dict string Z :=
  [("save", 1); ("money", 2); ("now", 3); (PAD, 0)]%string.

(** A word the whitespace tokenizer returns whole: not empty, no space. *)
Fixpoint no_space (w : string) : bool :=
  match w with
  | EmptyString => true
  | String c w' => negb (is_space c) && no_space w'
  end.

Definition word_ok (w : string) : bool :=
  match w with
  | EmptyString => false
  | _ => no_space w
  end.

End Sample.

(** ** More of the notebook: corpus filter, training split, BLEU input *)

Module PyStr.

(** [sub in s] for strings: [sub] occurs somewhere in [s]. *)
Fixpoint contains (sub s : string) : bool :=
  String.prefix sub s
  || match s with
     | EmptyString => false
     | String _ s' => contains sub s'
     end.

(** [str.isspace] on one character.  A character is a code point below
    256; the white-space code points in that range are 9-13, 28-32, 133 and
    160. *)
Definition is_whitespace (c : ascii) : bool :=
  let n := nat_of_ascii c in
  ((9 <=? n) && (n <=? 13) || (28 <=? n) && (n <=? 32)
   || (n =? 133) || (n =? 160))%nat.

(** [s.split()]: the maximal runs of characters that are not white
    space. *)
Fixpoint split_from (cur : string) (s : string) : list string :=
  match s with
  | EmptyString =>
      match cur with EmptyString => [] | _ => [cur] end
  | String c s' =>
      if is_whitespace c then
        match cur with
        | EmptyString => split_from EmptyString s'
        | _ => cur :: split_from EmptyString s'
        end
      else split_from (cur ++ String c EmptyString)%string s'
  end.

Definition split (s : string) : list string := split_from EmptyString s.

(** A string [split] returns as one piece: not empty, no white space. *)
Fixpoint no_whitespace (w : string) : bool :=
  match w with
  | EmptyString => true
  | String c w' => negb (is_whitespace c) && no_whitespace w'
  end.

Definition is_word (w : string) : bool :=
  match w with
  | EmptyString => false
  | _ => no_whitespace w
  end.

End PyStr.

Definition financial_keywords : list string :=
  ["finance"; "investment"; "budget"; "money"; "savings"; "stocks";
   "retirement"; "debt"; "credit"; "tax"]%string.

Section Loader.

(** [str.lower] *)
Variable lower : string -> string.

Definition is_financial (text : string) : bool :=
  existsb (fun keyword => PyStr.contains keyword (lower text))
          financial_keywords.

(** The body of the generator [load_openwebtext_financial], run over the
    ['text'] fields of a finite dataset: the list of the batches it
    yields, in order.  [financial_texts] is the batch being filled. *)
Fixpoint batches_from (batch_size : Z) (financial_texts : list string)
         (dataset : list string) : list (list string) :=
  match dataset with
  | [] =>
      match financial_texts with
      | [] => []
      | _ => [financial_texts]
      end
  | text :: dataset' =>
      if is_financial text then
        let financial_texts := financial_texts ++ [text] in
        if Py.len financial_texts >=? batch_size
        then financial_texts :: batches_from batch_size [] dataset'
        else batches_from batch_size financial_texts dataset'
      else batches_from batch_size financial_texts dataset'
  end.

Definition load_openwebtext_financial (dataset : list string)
           (batch_size : Z) : list (list string) :=
  batches_from batch_size [] dataset.

(** [next(financial_batches)] on a fresh generator; [StopIteration] when
    nothing is yielded. *)
Definition next_batch (batches : list (list string))
  : option (list string) :=
  match batches with
  | [] => None
  | texts :: _ => Some texts
  end.

End Loader.

(** [sequences[:, :-1]] and [sequences[:, 1:]] on the array
    [np.array(sequences)].  With no sequence the array has one axis and the
    two-axis index raises [IndexError]. *)
Definition train_split (sequences : list (list Z))
  : option (list (list Z) * list (list Z)) :=
  match sequences with
  | [] => None
  | _ =>
      Some (map (fun s => Py.slice s None (Some (- 1))) sequences,
            map (fun s => Py.slice s (Some 1) None) sequences)
  end.

Section Evaluation.

Variable word_tokenize : string -> list string.
Variable lower : string -> string.
Variable model : list Z -> Np.tensor.
(** [nltk.translate.bleu_score.sentence_bleu] *)
Variable sentence_bleu : list (list string) -> list string -> R.

(** [calculate_bleu]: the candidate is the text generated with the
    defaults [seq_length = 20], [length = 50], [temperature = 0.7]. *)
Definition calculate_bleu (vocab : Py.dict string Z) (seed_text : string)
           (reference_texts : list string) : option R :=
  match generate_text word_tokenize lower model vocab seed_text 20 50
                      (7 / 10)%R with
  | None => None
  | Some text =>
      let generated := PyStr.split text in
      let references := map PyStr.split reference_texts in
      Some (sentence_bleu references generated)
  end.

End Evaluation.

(** * Properties *)

(** ** Slices, repetition and ranges *)

Section SliceFacts.
Context {A : Type}.
Implicit Types l : list A.

Lemma len_nonneg l : 0 <= Py.len l.
Proof. unfold Py.len. lia. Qed.

Lemma len_app l1 l2 : Py.len (l1 ++ l2) = Py.len l1 + Py.len l2.
Proof. unfold Py.len. rewrite length_app. lia. Qed.

Lemma len_replicate (x : A) n : Py.len (Py.replicate x n) = Z.max n 0.
Proof. unfold Py.len, Py.replicate. rewrite repeat_length. lia. Qed.

(** [l[:k]] with [k >= 0] keeps the first [k] items. *)
Lemma slice_prefix l k :
  0 <= k -> Py.slice l None (Some k) = leading k l.
Proof.
  intros Hk. unfold Py.slice, leading, Py.adjust_index, Py.len.
  destruct (Z.ltb_spec k 0) as [?|_]; [lia|]. simpl skipn.
  destruct (Z.le_ge_cases k (Z.of_nat (List.length l))) as [Hle|Hge].
  - rewrite Z.min_l by lia. now rewrite Z.sub_0_r.
  - rewrite Z.min_r by lia. rewrite Z.sub_0_r, Nat2Z.id.
    rewrite firstn_all. symmetry. apply firstn_all2. lia.
Qed.

(** [l[:k]] with [k < 0] drops the last [-k] items. *)
Lemma slice_drop_last l k :
  k < 0 ->
  Py.slice l None (Some k) = firstn (List.length l - Z.to_nat (- k)) l.
Proof.
  intros Hk. unfold Py.slice, Py.adjust_index, Py.len.
  destruct (Z.ltb_spec k 0) as [_|?]; [|lia]. simpl skipn.
  f_equal. lia.
Qed.

(** [l[-k:]] with [k > 0] keeps the last [k] items. *)
Lemma slice_suffix l k :
  0 < k -> Py.slice l (Some (- k)) None = trailing k l.
Proof.
  intros Hk. unfold Py.slice, trailing, Py.adjust_index, Py.len.
  destruct (Z.ltb_spec (- k) 0) as [_|?]; [|lia].
  rewrite firstn_all2.
  - f_equal. lia.
  - rewrite length_skipn. lia.
Qed.

(** [l[-0:]] is [l[0:]]: the whole list. *)
Lemma slice_minus_zero l : Py.slice l (Some (- 0)) None = l.
Proof.
  unfold Py.slice, Py.adjust_index, Py.len. simpl.
  rewrite Z.min_l by lia. simpl. rewrite Z.sub_0_r, Nat2Z.id.
  apply firstn_all.
Qed.

Lemma len_leading l k :
  0 <= k -> Py.len (leading k l) = Z.min k (Py.len l).
Proof. intros. unfold Py.len, leading. rewrite length_firstn. lia. Qed.

Lemma len_trailing l k :
  0 <= k -> Py.len (trailing k l) = Z.min k (Py.len l).
Proof. intros. unfold Py.len, trailing. rewrite length_skipn. lia. Qed.

Lemma trailing_all l k : Py.len l <= k -> trailing k l = l.
Proof.
  unfold Py.len, trailing. intros.
  replace (List.length l - Z.to_nat k)%nat with 0%nat by lia. reflexivity.
Qed.

Lemma trailing_suffix l k : exists front, l = front ++ trailing k l.
Proof.
  exists (firstn (List.length l - Z.to_nat k) l).
  unfold trailing. now rewrite firstn_skipn.
Qed.
End SliceFacts.

(** ** The seed window of [generate_text] *)

Section SeedWindow.
Variable word_tokenize : string -> list string.
Variable lower : string -> string.
Variable vocab : Py.dict string Z.
Variable seed_text : string.

(** A long seed is cut to its first [seq_length - 1] identifiers. *)
Lemma initial_tokens_long seq_length :
  1 <= seq_length ->
  Py.len (seed_tokens word_tokenize lower vocab seed_text)
  >= seq_length - 1 ->
  initial_tokens word_tokenize lower vocab seed_text seq_length
  = leading (seq_length - 1)
            (seed_tokens word_tokenize lower vocab seed_text).
Proof.
  intros HL Hlen. unfold initial_tokens.
  rewrite slice_prefix by lia. unfold Py.replicate.
  replace (Z.to_nat (seq_length - 1 - Py.len _)) with 0%nat by lia.
  apply app_nil_r.
Qed.

(** A short seed is padded on the right with identifier [0]. *)
Lemma initial_tokens_short seq_length :
  Py.len (seed_tokens word_tokenize lower vocab seed_text)
  <= seq_length - 1 ->
  initial_tokens word_tokenize lower vocab seed_text seq_length
  = seed_tokens word_tokenize lower vocab seed_text
      ++ repeat 0
           (Z.to_nat
              (seq_length - 1
               - Py.len (seed_tokens word_tokenize lower vocab seed_text))).
Proof.
  intros Hlen. unfold initial_tokens.
  pose proof (len_nonneg (seed_tokens word_tokenize lower vocab seed_text)).
  rewrite slice_prefix by lia. unfold leading, Py.replicate.
  rewrite firstn_all2; [reflexivity|]. unfold Py.len in *. lia.
Qed.

(** After truncation or padding the state has [seq_length - 1] items. *)
Lemma initial_tokens_len seq_length :
  1 <= seq_length ->
  Py.len (initial_tokens word_tokenize lower vocab seed_text seq_length)
  = seq_length - 1.
Proof.
  intros HL. unfold initial_tokens.
  pose proof (len_nonneg (seed_tokens word_tokenize lower vocab seed_text)).
  rewrite len_app, len_replicate, slice_prefix, len_leading by lia. lia.
Qed.

(** With [seq_length >= 2] the window is the last [seq_length - 1] items
    of the state. *)
Lemma input_seq_trailing seq_length (tokens : list Z) :
  2 <= seq_length ->
  input_seq seq_length tokens = trailing (seq_length - 1) tokens.
Proof. intros. unfold input_seq. apply slice_suffix. lia. Qed.

(** With [seq_length = 1] the bound is [-0] and the window is the whole
    state. *)
Lemma input_seq_one (tokens : list Z) : input_seq 1 tokens = tokens.
Proof. unfold input_seq. apply slice_minus_zero. Qed.

(** The first window is the whole initial state. *)
Lemma initial_window seq_length :
  1 <= seq_length ->
  input_seq seq_length
    (initial_tokens word_tokenize lower vocab seed_text seq_length)
  = initial_tokens word_tokenize lower vocab seed_text seq_length.
Proof.
  intros HL. destruct (Z.eq_dec seq_length 1) as [->|Hne].
  - apply input_seq_one.
  - rewrite input_seq_trailing by lia. apply trailing_all.
    rewrite initial_tokens_len; lia.
Qed.
End SeedWindow.

(** ** Arg-max and the temperature transform *)

Section ArgMax.
Local Open Scope R_scope.

Lemma argmax_from_map (f : R -> R) (P : R -> Prop) :
  (forall x y, P x -> P y -> x < y -> f x < f y) ->
  forall l best best_i i,
    P best -> Forall P l ->
    Np.argmax_from best_i (f best) i (map f l) =
    Np.argmax_from best_i best i l.
Proof.
  intros Hmono. induction l as [|x l IH]; intros best best_i i Hb Hl.
  - reflexivity.
  - inversion Hl as [|? ? Hx Hl']; subst. simpl.
    destruct (Rlt_dec best x) as [Hlt|Hge];
      destruct (Rlt_dec (f best) (f x)) as [Hflt|Hfge].
    + now apply IH.
    + exfalso. apply Hfge. now apply Hmono.
    + exfalso. destruct (Rtotal_order x best) as [Hxb|[Heq|Hbx]].
      * apply (Hmono _ _ Hx Hb) in Hxb. lra.
      * subst. lra.
      * contradiction.
    + now apply IH.
Qed.

(** Arg-max commutes with a map that is strictly increasing on the
    entries of the row. *)
Lemma argmax_map (f : R -> R) (P : R -> Prop) row :
  (forall x y, P x -> P y -> x < y -> f x < f y) ->
  Forall P row ->
  Np.argmax (map f row) = Np.argmax row.
Proof.
  intros Hmono Hrow. destruct row as [|x l]; [reflexivity|].
  inversion Hrow; subst. simpl. f_equal. f_equal.
  now apply argmax_from_map with (P := P).
Qed.

(** The scan keeps the first index that holds the greatest value seen:
    everything scanned is at most the result, and everything scanned
    before the result is strictly below it. *)
Lemma argmax_from_spec l : forall (pre : list R) best best_i,
  (best_i < List.length pre)%nat ->
  nth best_i pre 0 = best ->
  (forall j, (j < List.length pre)%nat -> nth j pre 0 <= best) ->
  (forall j, (j < best_i)%nat -> nth j pre 0 < best) ->
  let r := Np.argmax_from best_i best (List.length pre) l in
  (r < List.length (pre ++ l))%nat /\
  (forall j, (j < List.length (pre ++ l))%nat ->
             nth j (pre ++ l) 0 <= nth r (pre ++ l) 0) /\
  (forall j, (j < r)%nat -> nth j (pre ++ l) 0 < nth r (pre ++ l) 0).
Proof.
  induction l as [|x l IH]; intros pre best best_i Hi Hbest Hle Hlt; simpl.
  - rewrite app_nil_r, Hbest. auto.
  - replace (pre ++ x :: l)%list with ((pre ++ [x]) ++ l)%list
      by (now rewrite <- app_assoc).
    assert (Hlen : List.length (pre ++ [x]) = S (List.length pre))
      by (rewrite length_app; simpl; lia).
    destruct (Rlt_dec best x) as [Hbx|Hbx].
    + specialize (IH (pre ++ [x])%list x (List.length pre)).
      rewrite Hlen in IH. apply IH.
      * lia.
      * rewrite app_nth2 by lia. now rewrite Nat.sub_diag.
      * intros j Hj. destruct (Nat.eq_dec j (List.length pre)) as [->|Hne].
        -- rewrite app_nth2 by lia. rewrite Nat.sub_diag. simpl. lra.
        -- rewrite app_nth1 by lia.
           assert (nth j pre 0 <= best) by (apply Hle; lia). lra.
      * intros j Hj. rewrite app_nth1 by lia.
        assert (nth j pre 0 <= best) by (apply Hle; lia). lra.
    + specialize (IH (pre ++ [x])%list best best_i).
      rewrite Hlen in IH. apply IH.
      * lia.
      * now rewrite app_nth1 by lia.
      * intros j Hj. destruct (Nat.eq_dec j (List.length pre)) as [->|Hne].
        -- rewrite app_nth2 by lia. rewrite Nat.sub_diag. simpl. lra.
        -- rewrite app_nth1 by lia. apply Hle. lia.
      * intros j Hj. rewrite app_nth1 by lia. now apply Hlt.
Qed.

(** [np.argmax] returns the first index of a greatest entry. *)
Lemma argmax_first_max row i :
  Np.argmax row = Some i ->
  (0 <= i < Py.len row)%Z /\
  (forall j, (j < List.length row)%nat ->
             nth j row 0 <= nth (Z.to_nat i) row 0) /\
  (forall j, (j < Z.to_nat i)%nat -> nth j row 0 < nth (Z.to_nat i) row 0).
Proof.
  destruct row as [|x l]; [discriminate|]. simpl. intros [= <-].
  rewrite Nat2Z.id.
  pose proof (argmax_from_spec l [x] x 0%nat) as H. simpl in H.
  destruct H as (Hb & Hmax & Hfirst).
  - lia.
  - reflexivity.
  - intros [|j] Hj; [lra|lia].
  - intros j Hj. lia.
  - split; [unfold Py.len; simpl; lia|]. split; assumption.
Qed.

Lemma argmax_nonempty row : row <> [] -> exists i, Np.argmax row = Some i.
Proof. destruct row; [congruence|]. intros _. simpl. eauto. Qed.
End ArgMax.

Section Temperature.
Local Open Scope R_scope.

Lemma log_floor_pos : 0 < log_floor.
Proof. unfold log_floor. apply Rinv_0_lt_compat, pow_lt. lra. Qed.

Lemma rescale_entry_increasing temperature s x y :
  0 < temperature -> 0 < s -> 0 <= x -> 0 <= y -> x < y ->
  rescale_entry temperature s x < rescale_entry temperature s y.
Proof.
  intros HT Hs Hx Hy Hxy. unfold rescale_entry, Rdiv.
  pose proof log_floor_pos as Hf.
  apply Rmult_lt_compat_r; [now apply Rinv_0_lt_compat|].
  apply exp_increasing.
  apply Rmult_lt_compat_r; [now apply Rinv_0_lt_compat|].
  apply ln_increasing; lra.
Qed.

Lemma last_map_default {A B : Type} (f : A -> B) (l : list A) d :
  last (map f l) (f d) = f (last l d).
Proof.
  induction l as [|x l IH]; [reflexivity|].
  destruct l as [|y l]; [reflexivity|]. exact IH.
Qed.

Lemma last_item_map {A B : Type} (f : A -> B) (l : list A) :
  Py.last_item (map f l) = option_map f (Py.last_item l).
Proof.
  destruct l as [|x l]; [reflexivity|]. simpl. f_equal.
  apply last_map_default.
Qed.

Lemma last_cons_shift {A : Type} (l : list A) x d :
  last (x :: l) d = last l x.
Proof.
  revert x d. induction l as [|y l IH]; intros x d; [reflexivity|].
  change (last (x :: y :: l) d) with (last (y :: l) d).
  now rewrite (IH y d), (IH y x).
Qed.

Lemma last_item_In {A : Type} (l : list A) x :
  Py.last_item l = Some x -> In x l.
Proof.
  destruct l as [|y l]; [discriminate|]. simpl. intros [= <-].
  revert y. induction l as [|z l IH]; intros y; [now left|].
  rewrite last_cons_shift. right. apply IH.
Qed.

Lemma rescale_rows temperature pred :
  rescale temperature pred =
  map (map (rescale_entry temperature (normaliser temperature pred))) pred.
Proof.
  unfold rescale, softmax. cbv zeta.
  change (Np.sum (Np.map2d exp (scaled_log temperature pred)))
    with (normaliser temperature pred).
  generalize (normaliser temperature pred) as s. intros s.
  unfold scaled_log, log_args, Np.map2d.
  rewrite !map_map. apply map_ext. intros row.
  rewrite !map_map. reflexivity.
Qed.

Lemma row_sum_exp_nonneg (row : list R) :
  0 <= fold_right Rplus 0 (map exp row).
Proof.
  induction row as [|x row IH]; simpl; [lra|].
  pose proof (exp_pos x). lra.
Qed.

Lemma row_sum_exp_pos (row : list R) :
  row <> []%list -> 0 < fold_right Rplus 0 (map exp row).
Proof.
  destruct row as [|x row]; [congruence|]. intros _. simpl.
  pose proof (exp_pos x). pose proof (row_sum_exp_nonneg row). lra.
Qed.

Lemma sum_exp_nonneg (t : Np.tensor) : 0 <= Np.sum (Np.map2d exp t).
Proof.
  unfold Np.sum, Np.map2d. induction t as [|row t IH]; simpl; [lra|].
  pose proof (row_sum_exp_nonneg row). lra.
Qed.

Lemma sum_exp_pos (t : Np.tensor) row :
  In row t -> row <> []%list -> 0 < Np.sum (Np.map2d exp t).
Proof.
  induction t as [|r t IH]; intros Hin Hne; [destruct Hin|].
  pose proof (sum_exp_nonneg t) as Ht.
  pose proof (row_sum_exp_nonneg r) as Hr.
  unfold Np.sum, Np.map2d in *. simpl. destruct Hin as [->|Hin].
  - pose proof (row_sum_exp_pos row Hne). lra.
  - specialize (IH Hin Hne). lra.
Qed.

Lemma normaliser_pos temperature pred row :
  In row pred -> row <> []%list -> 0 < normaliser temperature pred.
Proof.
  intros Hin Hne. unfold normaliser.
  apply sum_exp_pos with
    (row := map (fun x => ln x / temperature)
                (map (fun p => p + log_floor) row)).
  - unfold scaled_log, log_args, Np.map2d. now do 2 apply in_map.
  - destruct row; [congruence|discriminate].
Qed.

Lemma next_token_rows temperature pred :
  next_token temperature pred =
  match Py.last_item pred with
  | None => None
  | Some row =>
      Np.argmax
        (map (rescale_entry temperature (normaliser temperature pred)) row)
  end.
Proof.
  unfold next_token. rewrite rescale_rows, last_item_map.
  destruct (Py.last_item pred); reflexivity.
Qed.

(** On non-negative predictions and with a positive temperature, the
    rescaling does not change the arg-max. *)
Lemma next_token_argmax temperature pred :
  0 < temperature ->
  Forall (Forall (fun p => 0 <= p)) pred ->
  next_token temperature pred =
  match Py.last_item pred with
  | None => None
  | Some row => Np.argmax row
  end.
Proof.
  intros HT Hpos. rewrite next_token_rows.
  destruct (Py.last_item pred) as [row|] eqn:Hlast; [|reflexivity].
  apply last_item_In in Hlast.
  destruct row as [|x row]; [reflexivity|].
  apply argmax_map with (P := fun p => 0 <= p).
  - intros a b Ha Hb Hab. apply rescale_entry_increasing; try assumption.
    apply normaliser_pos with (row := (x :: row)%list);
      [assumption|discriminate].
  - rewrite Forall_forall in Hpos. now apply Hpos.
Qed.

Lemma next_token_total temperature pred row :
  Py.last_item pred = Some row -> row <> []%list ->
  exists next, next_token temperature pred = Some next.
Proof.
  intros Hlast Hne. rewrite next_token_rows, Hlast.
  apply argmax_nonempty. destruct row; [congruence|discriminate].
Qed.
End Temperature.

(** ** The decode loop *)

Section DecodeLoop.
Variable model : list Z -> Np.tensor.
Variable seq_length : Z.
Variable temperature : R.

Lemma decode_step_total :
  well_shaped model ->
  forall tokens, exists next,
    next_token temperature (model (input_seq seq_length tokens)) = Some next
    /\ decode_step model seq_length temperature tokens
       = Some (tokens ++ [next]).
Proof.
  intros Hshape tokens.
  destruct (Hshape (input_seq seq_length tokens)) as (row & Hlast & Hne).
  destruct (next_token_total temperature _ _ Hlast Hne) as [next Hnext].
  exists next. split; [assumption|].
  unfold decode_step. now rewrite Hnext.
Qed.

(** Running [n + m] passes is running [n] passes and then [m] more. *)
Lemma decode_loop_app n m tokens :
  decode_loop model (n + m) seq_length temperature tokens =
  match decode_loop model n seq_length temperature tokens with
  | None => None
  | Some tokens' => decode_loop model m seq_length temperature tokens'
  end.
Proof.
  revert tokens. induction n as [|n IH]; intros tokens; [reflexivity|].
  simpl. destruct (decode_step model seq_length temperature tokens);
    [apply IH|reflexivity].
Qed.

(** With a well-shaped model the loop never fails, appends exactly one
    identifier per pass, and each appended identifier is the arg-max for
    the window of the state it was appended to. *)
Lemma decode_loop_total :
  well_shaped model ->
  forall n tokens, exists generated,
    decode_loop model n seq_length temperature tokens
    = Some (tokens ++ generated)
    /\ List.length generated = n
    /\ forall k, (k < n)%nat ->
         next_token temperature
           (model (input_seq seq_length (tokens ++ firstn k generated)))
         = Some (nth k generated 0).
Proof.
  intros Hshape. induction n as [|n IH]; intros tokens.
  - exists []. simpl. rewrite app_nil_r. repeat split. intros k Hk. lia.
  - destruct (decode_step_total Hshape tokens) as (next & Hnext & Hstep).
    destruct (IH (tokens ++ [next])) as (gen & Hloop & Hlen & Hgen).
    exists (next :: gen). simpl. rewrite Hstep, Hloop, <- app_assoc.
    repeat split; [simpl; lia|].
    intros [|k] Hk; simpl.
    + now rewrite app_nil_r.
    + specialize (Hgen k). rewrite <- app_assoc in Hgen. apply Hgen. lia.
Qed.

(** The loop only sees the model through its answers. *)
Lemma decode_loop_ext (model' : list Z -> Np.tensor) :
  (forall window, model window = model' window) ->
  forall n tokens,
    decode_loop model n seq_length temperature tokens =
    decode_loop model' n seq_length temperature tokens.
Proof.
  intros Hext. induction n as [|n IH]; intros tokens; [reflexivity|].
  simpl. unfold decode_step. rewrite Hext.
  destruct (next_token temperature (model' (input_seq seq_length tokens)));
    [apply IH|reflexivity].
Qed.
End DecodeLoop.

Lemma sample_model_well_shaped : well_shaped Sample.model.
Proof.
  intros window. exists [0; 1]%R. split; [reflexivity|discriminate].
Qed.

(** ** Dictionaries *)

Section DictFacts.
Context {K V : Type}.
Variable eqb : K -> K -> bool.
Hypothesis eqb_eq : forall x y, eqb x y = true <-> x = y.

Lemma eqb_refl_true x : eqb x x = true.
Proof. now apply eqb_eq. Qed.

Lemma eqb_neq_false x y : x <> y -> eqb x y = false.
Proof.
  intros Hne. destruct (eqb x y) eqn:E; [|reflexivity].
  apply eqb_eq in E. contradiction.
Qed.

Lemma lookup_set_same (d : Py.dict K V) k v :
  Py.lookup eqb (Py.set eqb d k v) k = Some v.
Proof.
  induction d as [|[k' v'] d IH]; simpl.
  - now rewrite eqb_refl_true.
  - destruct (eqb k' k) eqn:E; simpl; rewrite E; [reflexivity|exact IH].
Qed.

Lemma lookup_set_other (d : Py.dict K V) k v k0 :
  k <> k0 -> Py.lookup eqb (Py.set eqb d k v) k0 = Py.lookup eqb d k0.
Proof.
  intros Hne. induction d as [|[k' v'] d IH]; simpl.
  - now rewrite eqb_neq_false.
  - destruct (eqb k' k) eqn:E; simpl.
    + apply eqb_eq in E. subst k'. now rewrite eqb_neq_false.
    + now rewrite IH.
Qed.

Lemma lookup_none (d : Py.dict K V) k :
  ~ In k (Py.keys d) -> Py.lookup eqb d k = None.
Proof.
  induction d as [|[k' v'] d IH]; simpl; intros Hnin; [reflexivity|].
  rewrite eqb_neq_false by tauto. apply IH. tauto.
Qed.

Lemma lookup_some_In (d : Py.dict K V) k v :
  Py.lookup eqb d k = Some v -> In (k, v) d.
Proof.
  induction d as [|[k' v'] d IH]; simpl; [discriminate|].
  destruct (eqb k' k) eqn:E.
  - apply eqb_eq in E. intros [= ->]. subst. now left.
  - intros H. right. now apply IH.
Qed.

(** Setting a key that is not there appends it. *)
Lemma set_fresh (d : Py.dict K V) k v :
  ~ In k (Py.keys d) -> Py.set eqb d k v = d ++ [(k, v)].
Proof.
  induction d as [|[k' v'] d IH]; simpl; intros Hnin; [reflexivity|].
  rewrite eqb_neq_false by tauto. f_equal. apply IH. tauto.
Qed.

(** [d[k] = v] either appends a new entry or overwrites, in place, the
    value of the one entry that has key [k]. *)
Lemma set_cases (d : Py.dict K V) k v :
  (~ In k (Py.keys d) /\ Py.set eqb d k v = d ++ [(k, v)]) \/
  (exists d1 v' d2,
      d = d1 ++ (k, v') :: d2 /\ ~ In k (Py.keys d1) /\
      Py.set eqb d k v = d1 ++ (k, v) :: d2).
Proof.
  induction d as [|[k' v'] d IH]; simpl.
  - left. split; [tauto|reflexivity].
  - destruct (eqb k' k) eqn:E.
    + apply eqb_eq in E. subst k'. right.
      exists [], v', d. split; [reflexivity|]. split; [simpl; tauto|].
      reflexivity.
    + assert (Hne : k' <> k).
      { intros ->. rewrite eqb_refl_true in E. discriminate. }
      destruct IH as [[Hnin Heq]|(d1 & w & d2 & Hd & Hnin & Heq)].
      * left. split; [tauto|]. now rewrite Heq.
      * right. exists ((k', v') :: d1), w, d2. subst d. simpl.
        split; [reflexivity|]. split; [tauto|]. now rewrite Heq.
Qed.
End DictFacts.

Lemma string_eqb_eq (x y : string) : String.eqb x y = true <-> x = y.
Proof. apply String.eqb_eq. Qed.

Lemma Z_eqb_eq (x y : Z) : Z.eqb x y = true <-> x = y.
Proof. apply Z.eqb_eq. Qed.

(** ** The inverse vocabulary *)

Section InverseVocabulary.

Lemma inv_fold_absent (items : list (string * Z)) t :
  ~ In t (map snd items) ->
  forall d0,
    Py.lookup Z.eqb
      (fold_left (fun d kv => Py.set Z.eqb d (snd kv) (fst kv)) items d0) t
    = Py.lookup Z.eqb d0 t.
Proof.
  induction items as [|[w i] items IH]; intros Hnin d0; [reflexivity|].
  simpl in *. rewrite IH by tauto.
  apply lookup_set_other; [apply Z_eqb_eq|tauto].
Qed.

Lemma inv_fold_present (items : list (string * Z)) t :
  In t (map snd items) ->
  forall d0, exists w,
    In (w, t) items /\
    Py.lookup Z.eqb
      (fold_left (fun d kv => Py.set Z.eqb d (snd kv) (fst kv)) items d0) t
    = Some w.
Proof.
  induction items as [|[w i] items IH]; intros Hin d0; [destruct Hin|].
  simpl. destruct (in_dec Z.eq_dec t (map snd items)) as [Hlater|Hnot].
  - destruct (IH Hlater (Py.set Z.eqb d0 i w)) as (w' & Hw' & Hlook).
    exists w'. split; [now right|assumption].
  - destruct Hin as [Heq|Hin]; [|contradiction]. simpl in Heq. subst i.
    exists w. split; [now left|].
    rewrite inv_fold_absent by assumption.
    apply lookup_set_same, Z_eqb_eq.
Qed.

(** An identifier that no word of the vocabulary has renders as
    ["<PAD>"]. *)
Lemma inv_vocab_absent (vocab : Py.dict string Z) t :
  ~ In t (Py.values vocab) ->
  Py.get Z.eqb (inv_vocab vocab) t PAD = PAD.
Proof.
  intros Hnin. unfold Py.get, inv_vocab, Py.items.
  now rewrite inv_fold_absent.
Qed.

(** An identifier of the vocabulary renders as a word that has it. *)
Lemma inv_vocab_present (vocab : Py.dict string Z) t :
  In t (Py.values vocab) ->
  In (Py.get Z.eqb (inv_vocab vocab) t PAD, t) vocab.
Proof.
  intros Hin. unfold Py.get, inv_vocab, Py.items.
  destruct (inv_fold_present vocab t Hin []) as (w & Hw & ->). exact Hw.
Qed.

Lemma render_len (vocab : Py.dict string Z) tokens :
  Py.len (render vocab tokens) = Py.len tokens.
Proof. unfold render, Py.len. now rewrite length_map. Qed.
End InverseVocabulary.

(** ** Claims about [generate_text] *)

(** C1, as the specification states it, fails: with [seq_length = 3] the
    seed "save money now" has three tokens, the first window is the first
    two identifiers [1; 2], and the last two are [2; 3]. *)
Lemma seed_window_not_trailing :
  let seed :=
    seed_tokens Sample.word_tokenize Sample.lower Sample.vocab
                "save money now" in
  let window :=
    input_seq 3 (initial_tokens Sample.word_tokenize Sample.lower
                                Sample.vocab "save money now" 3) in
  seed = [1; 2; 3] /\ Py.len seed > 3 - 1 /\
  window = [1; 2] /\ trailing (3 - 1) seed = [2; 3] /\
  window <> trailing (3 - 1) seed.
Proof. vm_compute. repeat split; discriminate. Qed.

(** C1 (amended): for [seq_length >= 1] and a seed whose tokenization has
    more than [seq_length - 1] tokens, the initial model input window is
    exactly the leading (first) [seq_length - 1] token identifiers of the
    tokenized seed. *)
Theorem seed_window_leading
        (word_tokenize : string -> list string) (lower : string -> string)
        (vocab : Py.dict string Z) (seed_text : string) (seq_length : Z) :
  1 <= seq_length ->
  Py.len (seed_tokens word_tokenize lower vocab seed_text) > seq_length - 1 ->
  input_seq seq_length
            (initial_tokens word_tokenize lower vocab seed_text seq_length)
  = leading (seq_length - 1)
            (seed_tokens word_tokenize lower vocab seed_text)
  /\ Py.len (input_seq seq_length
               (initial_tokens word_tokenize lower vocab seed_text
                               seq_length))
     = seq_length - 1.
Proof.
  intros HL Hlen. rewrite initial_window by assumption.
  split; [apply initial_tokens_long; lia|].
  now apply initial_tokens_len.
Qed.

Lemma seed_window_leading_witness :
  1 <= 3
  /\ Py.len (seed_tokens Sample.word_tokenize Sample.lower Sample.vocab
                         "save money now") > 3 - 1
  /\ input_seq 3 (initial_tokens Sample.word_tokenize Sample.lower
                                 Sample.vocab "save money now" 3)
     = leading (3 - 1)
               (seed_tokens Sample.word_tokenize Sample.lower Sample.vocab
                            "save money now").
Proof.
  assert (H1 : 1 <= 3) by lia.
  assert (H2 : Py.len (seed_tokens Sample.word_tokenize Sample.lower
                         Sample.vocab "save money now") > 3 - 1)
    by (vm_compute; reflexivity).
  split; [exact H1|]. split; [exact H2|].
  apply (seed_window_leading Sample.word_tokenize Sample.lower Sample.vocab
                             "save money now" 3 H1 H2).
Defined.

Section GenerateTextRun.
Variable word_tokenize : string -> list string.
Variable lower : string -> string.
Variable model : list Z -> Np.tensor.
Variable vocab : Py.dict string Z.
Variable seed_text : string.
Variable seq_length length : Z.
Variable temperature : R.

Lemma generate_text_unfold :
  generate_text word_tokenize lower model vocab seed_text seq_length length
                temperature
  = option_map (fun tokens => Py.join " " (render vocab tokens))
      (decode_loop model (Z.to_nat length) seq_length temperature
         (initial_tokens word_tokenize lower vocab seed_text seq_length)).
Proof.
  unfold generate_text.
  destruct (decode_loop model (Z.to_nat length) seq_length temperature
              (initial_tokens word_tokenize lower vocab seed_text
                              seq_length)); reflexivity.
Qed.

(** For every [seq_length] and [length]: with a well-shaped model the
    call returns, after [max length 0] passes, the rendering of the
    initial state followed by one identifier per pass. *)
Lemma generate_text_run :
  well_shaped model ->
  exists generated,
    decode_loop model (Z.to_nat length) seq_length temperature
      (initial_tokens word_tokenize lower vocab seed_text seq_length)
    = Some (initial_tokens word_tokenize lower vocab seed_text seq_length
              ++ generated)
    /\ Py.len generated = Z.max length 0
    /\ (forall k, (k < Z.to_nat length)%nat ->
          next_token temperature
            (model (input_seq seq_length
                      (initial_tokens word_tokenize lower vocab seed_text
                                      seq_length ++ firstn k generated)))
          = Some (nth k generated 0))
    /\ generate_text word_tokenize lower model vocab seed_text seq_length
                     length temperature
       = Some (Py.join " "
                 (render vocab
                    (initial_tokens word_tokenize lower vocab seed_text
                                    seq_length ++ generated))).
Proof.
  intros Hshape.
  destruct (decode_loop_total model seq_length temperature Hshape
              (Z.to_nat length)
              (initial_tokens word_tokenize lower vocab seed_text
                              seq_length))
    as (gen & Hloop & Hlen & Hgen).
  exists gen. split; [assumption|]. split; [unfold Py.len; lia|].
  split; [assumption|]. rewrite generate_text_unfold, Hloop. reflexivity.
Qed.
End GenerateTextRun.

(** C5: a seed whose tokenization has fewer than [seq_length - 1] tokens
    gives an initial window that is the tokenized seed right-padded with the
    padding identifier 0 to exactly [seq_length - 1] identifiers; a seed
    with no tokens gives an all-padding window; and the loop proceeds: the
    first pass appends an identifier and the call returns a string. *)
Theorem seed_window_padded
        (word_tokenize : string -> list string) (lower : string -> string)
        (model : list Z -> Np.tensor) (vocab : Py.dict string Z)
        (seed_text : string) (seq_length length : Z) (temperature : R) :
  well_shaped model ->
  Py.len (seed_tokens word_tokenize lower vocab seed_text) < seq_length - 1 ->
  let seed := seed_tokens word_tokenize lower vocab seed_text in
  let initial :=
    initial_tokens word_tokenize lower vocab seed_text seq_length in
  input_seq seq_length initial
  = seed ++ repeat 0 (Z.to_nat (seq_length - 1 - Py.len seed))
  /\ Py.len (input_seq seq_length initial) = seq_length - 1
  /\ (seed = [] ->
      input_seq seq_length initial = repeat 0 (Z.to_nat (seq_length - 1)))
  /\ (exists next,
         decode_step model seq_length temperature initial
         = Some (initial ++ [next]))
  /\ (exists text,
         generate_text word_tokenize lower model vocab seed_text seq_length
                       length temperature = Some text).
Proof.
  intros Hshape Hshort seed initial.
  pose proof (len_nonneg seed) as Hnn.
  assert (Hwin : input_seq seq_length initial
                 = seed ++ repeat 0 (Z.to_nat (seq_length - 1 - Py.len seed))).
  { subst initial. rewrite initial_window by (subst seed; lia).
    apply initial_tokens_short. subst seed. lia. }
  split; [exact Hwin|].
  split.
  { subst initial. rewrite initial_window by (subst seed; lia).
    apply initial_tokens_len. subst seed. lia. }
  split.
  { intros Hnil. rewrite Hwin, Hnil. simpl. now rewrite Z.sub_0_r. }
  split.
  - destruct (decode_step_total model seq_length temperature Hshape initial)
      as (next & _ & Hstep).
    now exists next.
  - destruct (generate_text_run word_tokenize lower model vocab seed_text
                seq_length length temperature Hshape)
      as (gen & _ & _ & _ & Hgen).
    eauto.
Qed.

Lemma seed_window_padded_witness :
  well_shaped Sample.model
  /\ Py.len (seed_tokens Sample.word_tokenize Sample.lower Sample.vocab
                         "save money") < 4 - 1
  /\ input_seq 4 (initial_tokens Sample.word_tokenize Sample.lower
                                 Sample.vocab "save money" 4)
     = [1; 2; 0].
Proof.
  assert (Hshort : Py.len (seed_tokens Sample.word_tokenize Sample.lower
                             Sample.vocab "save money") < 4 - 1)
    by (vm_compute; reflexivity).
  split; [exact sample_model_well_shaped|]. split; [exact Hshort|].
  destruct (seed_window_padded Sample.word_tokenize Sample.lower
              Sample.model Sample.vocab "save money" 4 2 1%R
              sample_model_well_shaped Hshort) as (Hwin & _).
  rewrite Hwin. vm_compute. reflexivity.
Defined.

(** C3: for every [length >= 0] the call returns: the decode loop makes
    exactly [length] passes, each appending the arg-max identifier for the
    current window, with no early exit, and the returned string is the
    space-join of exactly [(seq_length - 1) + length] tokens. *)
Theorem generate_text_token_count
        (word_tokenize : string -> list string) (lower : string -> string)
        (model : list Z -> Np.tensor) (vocab : Py.dict string Z)
        (seed_text : string) (seq_length length : Z) (temperature : R) :
  well_shaped model -> 0 <= length -> 1 <= seq_length ->
  let initial :=
    initial_tokens word_tokenize lower vocab seed_text seq_length in
  exists generated words,
    decode_loop model (Z.to_nat length) seq_length temperature initial
    = Some (initial ++ generated)
    /\ Py.len generated = length
    /\ (forall k, (k < Z.to_nat length)%nat ->
          next_token temperature
            (model (input_seq seq_length (initial ++ firstn k generated)))
          = Some (nth k generated 0))
    /\ generate_text word_tokenize lower model vocab seed_text seq_length
                     length temperature
       = Some (Py.join " " words)
    /\ words = render vocab (initial ++ generated)
    /\ Py.len initial = seq_length - 1
    /\ Py.len words = (seq_length - 1) + length.
Proof.
  intros Hshape Hlen HL initial.
  destruct (generate_text_run word_tokenize lower model vocab seed_text
              seq_length length temperature Hshape)
    as (gen & Hloop & Hgenlen & Hsteps & Htext).
  exists gen, (render vocab (initial ++ gen)).
  assert (Hinit : Py.len initial = seq_length - 1)
    by (now apply initial_tokens_len).
  repeat split; try assumption.
  - lia.
  - rewrite render_len, len_app. lia.
Qed.

Lemma generate_text_token_count_witness :
  well_shaped Sample.model /\ 0 <= 2 /\ 1 <= 4
  /\ exists words,
       generate_text Sample.word_tokenize Sample.lower Sample.model
                     Sample.vocab "save money" 4 2 1%R
       = Some (Py.join " " words)
       /\ Py.len words = (4 - 1) + 2.
Proof.
  assert (H1 : 0 <= 2) by lia.
  assert (H2 : 1 <= 4) by lia.
  split; [exact sample_model_well_shaped|]. split; [exact H1|].
  split; [exact H2|].
  destruct (generate_text_token_count Sample.word_tokenize Sample.lower
              Sample.model Sample.vocab "save money" 4 2 1%R
              sample_model_well_shaped H1 H2)
    as (gen & words & _ & _ & _ & Htext & _ & _ & Hcount).
  exists words. split; [exact Htext|exact Hcount].
Defined.

(** The invariant for [seq_length >= 2]: at every decode step [k] the
    state has the length of the truncated or padded seed, [seq_length - 1],
    plus [k], and the window the model is queried with is exactly the last
    [seq_length - 1] identifiers of that state. *)
Lemma decode_invariant
        (word_tokenize : string -> list string) (lower : string -> string)
        (model : list Z -> Np.tensor) (vocab : Py.dict string Z)
        (seed_text : string) (seq_length length : Z) (temperature : R)
        (k : nat) :
  well_shaped model -> 2 <= seq_length -> (k <= Z.to_nat length)%nat ->
  let initial :=
    initial_tokens word_tokenize lower vocab seed_text seq_length in
  exists state,
    decode_loop model k seq_length temperature initial = Some state
    /\ decode_loop model (Z.to_nat length) seq_length temperature initial
       = decode_loop model (Z.to_nat length - k) seq_length temperature state
    /\ Py.len initial = seq_length - 1
    /\ Py.len state = Py.len initial + Z.of_nat k
    /\ input_seq seq_length state = trailing (seq_length - 1) state
    /\ Py.len (input_seq seq_length state) = seq_length - 1
    /\ (exists front, state = front ++ input_seq seq_length state)
    /\ (exists next,
           next_token temperature (model (input_seq seq_length state))
           = Some next
           /\ decode_step model seq_length temperature state
              = Some (state ++ [next])).
Proof.
  intros Hshape HL Hk initial.
  destruct (decode_loop_total model seq_length temperature Hshape k initial)
    as (gen & Hloop & Hlen & _).
  exists (initial ++ gen).
  assert (Hinit : Py.len initial = seq_length - 1)
    by (apply initial_tokens_len; lia).
  assert (Hstate : Py.len (initial ++ gen) = Py.len initial + Z.of_nat k)
    by (rewrite len_app; unfold Py.len; lia).
  split; [assumption|]. split.
  { replace (Z.to_nat length) with (k + (Z.to_nat length - k))%nat at 1
      by lia.
    now rewrite decode_loop_app, Hloop. }
  split; [assumption|]. split; [assumption|].
  rewrite input_seq_trailing by assumption.
  split; [reflexivity|]. split.
  { rewrite len_trailing by lia. lia. }
  split; [apply trailing_suffix|].
  rewrite <- input_seq_trailing by assumption.
  apply decode_step_total. assumption.
Qed.

Lemma decode_invariant_witness :
  well_shaped Sample.model /\ 2 <= 4 /\ (1 <= Z.to_nat 2)%nat
  /\ exists state,
       decode_loop Sample.model 1 4 1%R
         (initial_tokens Sample.word_tokenize Sample.lower Sample.vocab
                         "save money" 4) = Some state
       /\ Py.len state = (4 - 1) + 1
       /\ Py.len (input_seq 4 state) = 4 - 1.
Proof.
  assert (H1 : 2 <= 4) by lia.
  assert (H2 : (1 <= Z.to_nat 2)%nat) by (simpl; lia).
  split; [exact sample_model_well_shaped|]. split; [exact H1|].
  split; [exact H2|].
  destruct (decode_invariant Sample.word_tokenize Sample.lower Sample.model
              Sample.vocab "save money" 4 2 1%R 1
              sample_model_well_shaped H1 H2)
    as (state & Hloop & _ & Hinit & Hlen & _ & Hwin & _).
  exists state. split; [exact Hloop|]. split; [|exact Hwin].
  rewrite Hlen, Hinit. reflexivity.
Defined.

(** With [seq_length = 1] the slice bound is [-0]: the window is the whole
    state, which is empty only before the first pass. *)
Lemma window_whole_state_at_one
      (word_tokenize : string -> list string) (lower : string -> string)
      (vocab : Py.dict string Z) (seed_text : string) (generated : list Z) :
  input_seq 1 (initial_tokens word_tokenize lower vocab seed_text 1
                 ++ generated)
  = generated.
Proof.
  rewrite input_seq_one.
  assert (H : Py.len (initial_tokens word_tokenize lower vocab seed_text 1)
              = 1 - 1) by (apply initial_tokens_len; lia).
  destruct (initial_tokens word_tokenize lower vocab seed_text 1);
    [reflexivity|].
  unfold Py.len in H. simpl in H. lia.
Qed.

(** C6: the inverse-vocabulary lookup of [generate_text] is total: every
    identifier of the final state is rendered as a string, a word of the
    vocabulary that has that identifier when there is one, and the literal
    ["<PAD>"] for every identifier that no word has; rendering adds no
    failure to the call. *)
Theorem inverse_vocabulary_total (vocab : Py.dict string Z) :
  (forall t,
      (In t (Py.values vocab) ->
       In (Py.get Z.eqb (inv_vocab vocab) t PAD, t) vocab)
      /\ (~ In t (Py.values vocab) ->
          Py.get Z.eqb (inv_vocab vocab) t PAD = "<PAD>"%string))
  /\ (forall tokens,
         List.length (render vocab tokens) = List.length tokens
         /\ forall k, (k < List.length tokens)%nat ->
              nth k (render vocab tokens) EmptyString
              = Py.get Z.eqb (inv_vocab vocab) (nth k tokens 0) PAD)
  /\ (forall word_tokenize lower model seed_text seq_length length
             temperature,
         generate_text word_tokenize lower model vocab seed_text seq_length
                       length temperature
         = option_map (fun tokens => Py.join " " (render vocab tokens))
             (decode_loop model (Z.to_nat length) seq_length temperature
                (initial_tokens word_tokenize lower vocab seed_text
                                seq_length))).
Proof.
  split; [|split].
  - intros t. split; [apply inv_vocab_present|apply inv_vocab_absent].
  - intros tokens. split; [unfold render; apply length_map|].
    intros k Hk. unfold render.
    rewrite nth_indep with (d' := Py.get Z.eqb (inv_vocab vocab) 0 PAD)
      by (now rewrite length_map).
    apply (map_nth (fun t => Py.get Z.eqb (inv_vocab vocab) t PAD)).
  - intros. apply generate_text_unfold.
Qed.

(** In exact real arithmetic (NumPy's floats are not modelled, and differ:
    at a small temperature every exponential underflows): for a fixed
    prediction with non-negative entries and any two positive temperatures,
    the rescaling followed by arg-max selects the same identifier, namely
    the arg-max of the untransformed last row. *)
Lemma real_temperature_invariant (pred : Np.tensor) (t1 t2 : R) :
  (0 < t1)%R -> (0 < t2)%R ->
  Forall (Forall (fun p => (0 <= p)%R)) pred ->
  next_token t1 pred = next_token t2 pred
  /\ next_token t1 pred
     = match Py.last_item pred with
       | None => None
       | Some row => Np.argmax row
       end.
Proof.
  intros H1 H2 Hpos.
  rewrite (next_token_argmax t1 pred H1 Hpos).
  rewrite (next_token_argmax t2 pred H2 Hpos).
  split; reflexivity.
Qed.

(** In exact real arithmetic the whole returned text does not depend on a
    positive temperature when the model only returns non-negative
    entries. *)
Lemma real_generate_text_temperature_inert
      (word_tokenize : string -> list string) (lower : string -> string)
      (model : list Z -> Np.tensor) (vocab : Py.dict string Z)
      (seed_text : string) (seq_length length : Z) (t1 t2 : R) :
  (0 < t1)%R -> (0 < t2)%R ->
  (forall window, Forall (Forall (fun p => (0 <= p)%R)) (model window)) ->
  generate_text word_tokenize lower model vocab seed_text seq_length length t1
  = generate_text word_tokenize lower model vocab seed_text seq_length length
                  t2.
Proof.
  intros H1 H2 Hpos. rewrite !generate_text_unfold. f_equal.
  generalize (initial_tokens word_tokenize lower vocab seed_text seq_length).
  induction (Z.to_nat length) as [|n IH]; intros tokens; [reflexivity|].
  simpl. unfold decode_step.
  rewrite (next_token_argmax t1), (next_token_argmax t2) by auto.
  destruct (Py.last_item (model (input_seq seq_length tokens))) as [row|];
    [|reflexivity].
  destruct (Np.argmax row); [apply IH|reflexivity].
Qed.

(** In exact real arithmetic: when every entry of the prediction is
    [>= 0], every argument handed to the logarithm, entry + 1e-10, is
    strictly positive.  This says nothing about the float transform as a
    whole. *)
Lemma real_log_argument_positive (pred : Np.tensor) (temperature : R) :
  Forall (Forall (fun p => (0 <= p)%R)) pred ->
  Forall (Forall (fun x => (0 < x)%R /\ exp (ln x) = x)) (log_args pred)
  /\ scaled_log temperature pred
     = Np.map2d (fun x => (ln x / temperature)%R) (log_args pred)
  /\ Forall2 (Forall2 (fun p x => x = (p + / 10 ^ 10)%R)) pred (log_args pred).
Proof.
  intros Hpos. pose proof log_floor_pos as Hfloor.
  split; [|split; [reflexivity|]].
  - unfold log_args, Np.map2d.
    induction Hpos as [|row pred Hrow _ IH]; constructor; [|exact IH].
    induction Hrow as [|p row Hp _ IHrow]; constructor; [|exact IHrow].
    assert (0 < p + log_floor)%R by lra.
    split; [assumption|now apply exp_ln].
  - unfold log_args, Np.map2d. clear Hpos.
    induction pred as [|row pred IH]; constructor; [|exact IH].
    induction row as [|p row IHrow]; constructor; [reflexivity|exact IHrow].
Qed.

(** ** The vocabulary of [preprocess_text] *)

Section Vocabulary.

Lemma In_keys_bump (d : Py.dict string Z) w k :
  In k (Py.keys (Py.bump d w)) -> k = w \/ In k (Py.keys d).
Proof.
  induction d as [|[w' c] d IH]; simpl.
  - intros [<-|[]]. now left.
  - destruct (String.eqb w' w); simpl; [tauto|].
    intros [<-|Hin]; [tauto|]. destruct (IH Hin); tauto.
Qed.

Lemma bump_NoDup (d : Py.dict string Z) w :
  NoDup (Py.keys d) -> NoDup (Py.keys (Py.bump d w)).
Proof.
  induction d as [|[w' c] d IH]; simpl; intros Hnd.
  - constructor; [tauto|constructor].
  - inversion Hnd as [|? ? Hnin Hnd']; subst.
    destruct (String.eqb_spec w' w) as [->|Hne]; simpl.
    + now constructor.
    + constructor; [|now apply IH].
      intros Hin. apply In_keys_bump in Hin. destruct Hin; congruence.
Qed.

(** A [Counter] has each word once. *)
Lemma Counter_NoDup (l : list string) : NoDup (Py.keys (Py.Counter l)).
Proof.
  unfold Py.Counter.
  assert (H : forall d, NoDup (Py.keys d) ->
                        NoDup (Py.keys (fold_left Py.bump l d))).
  { induction l as [|w l IH]; intros d Hd; [assumption|].
    simpl. apply IH. now apply bump_NoDup. }
  apply H. constructor.
Qed.

Lemma insert_desc_perm x l : Permutation (x :: l) (Py.insert_desc x l).
Proof.
  induction l as [|y l IH]; simpl; [reflexivity|].
  destruct (snd x <? snd y); [|reflexivity].
  rewrite perm_swap. now constructor.
Qed.

Lemma sorted_desc_perm l : Permutation l (Py.sorted_desc l).
Proof.
  induction l as [|x l IH]; simpl; [constructor|].
  rewrite <- insert_desc_perm. now constructor.
Qed.

Lemma firstn_NoDup {A : Type} n (l : list A) : NoDup l -> NoDup (firstn n l).
Proof.
  intros Hnd. rewrite <- (firstn_skipn n l) in Hnd.
  now apply NoDup_app_remove_r in Hnd.
Qed.

(** [most_common(n)] gives at most [n] distinct words. *)
Lemma most_common_words (c : Py.dict string Z) n :
  NoDup (Py.keys c) ->
  NoDup (map fst (Py.most_common c n))
  /\ Py.len (map fst (Py.most_common c n)) <= Z.max n 0.
Proof.
  intros Hnd. unfold Py.most_common, Py.len.
  destruct (Z.leb_spec n 0) as [Hn|Hn]; simpl.
  - split; [constructor|lia].
  - rewrite <- firstn_map. split.
    + apply firstn_NoDup.
      apply Permutation_NoDup with (l := Py.keys c); [|assumption].
      unfold Py.keys, Py.items. apply Permutation_map, sorted_desc_perm.
    + pose proof (firstn_le_length (Z.to_nat n)
                    (map fst (Py.sorted_desc (Py.items c)))). lia.
Qed.

Lemma map_snd_enumerate_from {A : Type} (l : list A) i :
  map snd (Py.enumerate_from i l) = l.
Proof.
  revert i. induction l as [|x l IH]; intros i; simpl; [reflexivity|].
  now rewrite IH.
Qed.

Lemma In_enumerate_from {A : Type} (l : list A) i j x :
  In (j, x) (Py.enumerate_from i l) -> i <= j < i + Py.len l.
Proof.
  revert i. induction l as [|y l IH]; intros i; simpl; [tauto|].
  unfold Py.len in *. intros [[= <- <-]|Hin].
  - simpl. lia.
  - apply IH in Hin. simpl List.length. lia.
Qed.

Lemma enumerate_from_NoDup {A : Type} (l : list A) i :
  NoDup (map fst (Py.enumerate_from i l)).
Proof.
  revert i. induction l as [|x l IH]; intros i; simpl; constructor.
  - intros Hin. apply in_map_iff in Hin. destruct Hin as ([j y] & Hj & Hin).
    simpl in Hj. subst j. apply In_enumerate_from in Hin. lia.
  - apply IH.
Qed.

(** The comprehension [{word: idx + 1 for idx, word in enumerate(words)}]
    over distinct words adds one entry per word, in order. *)
Lemma comprehension_fresh (words : list string) :
  forall i d0,
    NoDup words -> (forall w, In w words -> ~ In w (Py.keys d0)) ->
    fold_left (fun d iw => Py.set String.eqb d (snd iw) (fst iw + 1))
              (Py.enumerate_from i words) d0
    = d0 ++ map (fun iw => (snd iw, fst iw + 1)) (Py.enumerate_from i words).
Proof.
  induction words as [|w words IH]; intros i d0 Hnd Hfresh; simpl.
  - now rewrite app_nil_r.
  - inversion Hnd as [|? ? Hnin Hnd']; subst.
    rewrite (set_fresh String.eqb string_eqb_eq) by (apply Hfresh; now left).
    rewrite IH; [now rewrite <- app_assoc|assumption|].
    intros w' Hw'. unfold Py.keys. rewrite map_app, in_app_iff. simpl.
    intros [Hin|[<-|[]]]; [|contradiction].
    apply (Hfresh w'); [now right|assumption].
Qed.

Lemma NoDup_map_inj {A B : Type} (f : A -> B) (l : list A) :
  (forall x y, f x = f y -> x = y) -> NoDup l -> NoDup (map f l).
Proof.
  intros Hinj. induction 1 as [|x l Hnin Hnd IH]; simpl; constructor.
  - intros Hin. apply in_map_iff in Hin. destruct Hin as (y & Hy & Hin).
    apply Hinj in Hy. now subst y.
  - exact IH.
Qed.

Lemma NoDup_snd_inj {A B : Type} (d : list (A * B)) a b i :
  NoDup (map snd d) -> In (a, i) d -> In (b, i) d -> a = b.
Proof.
  induction d as [|[k v] d IH]; simpl; intros Hnd Ha Hb; [destruct Ha|].
  inversion Hnd as [|? ? Hnin Hnd']; subst.
  destruct Ha as [Ha|Ha], Hb as [Hb|Hb].
  - congruence.
  - injection Ha as -> ->. exfalso. apply Hnin, in_map_iff. now exists (b, i).
  - injection Hb as -> ->. exfalso. apply Hnin, in_map_iff. now exists (a, i).
  - now apply IH.
Qed.
End Vocabulary.

Section PadEntry.
Variable entries : Py.dict string Z.
Variable m : Z.
Hypothesis keys_distinct : NoDup (Py.keys entries).
Hypothesis values_distinct : NoDup (Py.values entries).
Hypothesis values_positive :
  forall v, In v (Py.values entries) -> 1 <= v <= m.
Hypothesis entries_len : Py.len entries <= m.

(** Adding ["<PAD>"] with identifier 0 to word entries numbered from 1
    keeps words and identifiers distinct. *)
Lemma set_pad_props :
  NoDup (Py.keys (Py.set String.eqb entries PAD 0))
  /\ NoDup (Py.values (Py.set String.eqb entries PAD 0))
  /\ (forall v, In v (Py.values (Py.set String.eqb entries PAD 0)) ->
                0 <= v <= m)
  /\ Py.len (Py.set String.eqb entries PAD 0) <= m + 1
  /\ (forall w, In (w, 0) (Py.set String.eqb entries PAD 0) -> w = PAD).
Proof.
  assert (Hzero : ~ In 0 (Py.values entries)).
  { intros H0. apply values_positive in H0. lia. }
  destruct (set_cases String.eqb string_eqb_eq entries PAD 0)
    as [[Hfresh ->]|(d1 & v' & d2 & Hd & Hnin & ->)].
  - unfold Py.keys, Py.values, Py.len in *.
    rewrite !map_app, length_app. simpl.
    split; [|split; [|split; [|split]]].
    + apply NoDup_app; [assumption|repeat constructor; tauto|].
      intros a Ha [<-|[]]. contradiction.
    + apply NoDup_app; [assumption|repeat constructor; tauto|].
      intros a Ha [<-|[]]. contradiction.
    + intros v Hv. apply in_app_iff in Hv. destruct Hv as [Hv|[<-|[]]].
      * apply values_positive in Hv. lia.
      * pose proof (Zle_0_nat (List.length entries)). lia.
    + lia.
    + intros w Hw. apply in_app_iff in Hw. destruct Hw as [Hw|[Hw|[]]].
      * exfalso. apply Hzero. apply in_map_iff. now exists (w, 0).
      * congruence.
  - unfold Py.keys, Py.values, Py.len in *. subst entries.
    rewrite !map_app, !length_app in *. simpl in *.
    assert (Hvals : forall v, In v (map snd d1 ++ map snd d2) -> 1 <= v <= m).
    { intros v Hv. apply values_positive. apply in_app_iff.
      apply in_app_iff in Hv. simpl. tauto. }
    split; [|split; [|split; [|split]]].
    + assumption.
    + apply NoDup_remove_1 in values_distinct.
      apply Permutation_NoDup with (l := 0 :: map snd d1 ++ map snd d2).
      * apply Permutation_middle.
      * constructor; [|assumption]. intros H0. apply Hvals in H0. lia.
    + intros v Hv. apply in_app_iff in Hv. destruct Hv as [Hv|[<-|Hv]].
      * assert (1 <= v <= m) by (apply Hvals, in_app_iff; tauto). lia.
      * pose proof (Zle_0_nat (List.length d1 + S (List.length d2))). lia.
      * assert (1 <= v <= m) by (apply Hvals, in_app_iff; tauto). lia.
    + lia.
    + intros w Hw. apply in_app_iff in Hw. destruct Hw as [Hw|[Hw|Hw]].
      * exfalso. assert (1 <= 0 <= m); [|lia]. apply Hvals, in_app_iff.
        left. apply in_map_iff. now exists (w, 0).
      * congruence.
      * exfalso. assert (1 <= 0 <= m); [|lia]. apply Hvals, in_app_iff.
        right. apply in_map_iff. now exists (w, 0).
Qed.
End PadEntry.

(** What [build_vocab] computes: the most common words numbered from 1 in
    order, then ["<PAD>"] set to 0. *)
Lemma build_vocab_entries (all_tokens : list string) (vocab_size : Z) :
  build_vocab all_tokens vocab_size
  = Py.set String.eqb
      (map (fun iw => (snd iw, fst iw + 1))
           (Py.enumerate
              (map fst (Py.most_common (Py.Counter all_tokens)
                                       (vocab_size - 1)))))
      PAD 0.
Proof.
  unfold build_vocab. cbv zeta. f_equal. unfold Py.enumerate.
  rewrite comprehension_fresh; [reflexivity| |intros w _ []].
  apply most_common_words, Counter_NoDup.
Qed.

Lemma build_vocab_props (all_tokens : list string) (vocab_size : Z) :
  1 <= vocab_size ->
  NoDup (Py.keys (build_vocab all_tokens vocab_size))
  /\ NoDup (Py.values (build_vocab all_tokens vocab_size))
  /\ (forall v, In v (Py.values (build_vocab all_tokens vocab_size)) ->
                0 <= v <= vocab_size - 1)
  /\ Py.len (build_vocab all_tokens vocab_size) <= vocab_size
  /\ (forall w, In (w, 0) (build_vocab all_tokens vocab_size) -> w = PAD).
Proof.
  intros Hsize. rewrite build_vocab_entries.
  set (words := map fst (Py.most_common (Py.Counter all_tokens)
                                        (vocab_size - 1))).
  destruct (most_common_words (Py.Counter all_tokens) (vocab_size - 1)
              (Counter_NoDup all_tokens)) as [Hnd Hlen].
  fold words in Hnd, Hlen.
  set (entries := map (fun iw : Z * string => (snd iw, fst iw + 1))
                      (Py.enumerate words)).
  assert (Hkeys : Py.keys entries = words).
  { unfold Py.keys, entries, Py.enumerate. rewrite map_map. simpl.
    apply map_snd_enumerate_from. }
  assert (Hvals : Py.values entries
                  = map (fun j => j + 1) (map fst (Py.enumerate words))).
  { unfold Py.values, entries. now rewrite !map_map. }
  assert (Hentries : Py.len entries = Py.len words).
  { unfold Py.len. rewrite <- Hkeys. unfold Py.keys.
    now rewrite length_map. }
  destruct (set_pad_props entries (vocab_size - 1)) as (H1 & H2 & H3 & H4 & H5).
  - now rewrite Hkeys.
  - rewrite Hvals. apply NoDup_map_inj.
    + intros x y Hxy. lia.
    + apply enumerate_from_NoDup.
  - intros v Hv. rewrite Hvals in Hv. apply in_map_iff in Hv.
    destruct Hv as (j & <- & Hj). apply in_map_iff in Hj.
    destruct Hj as ([j' w] & Hj' & Hin). simpl in Hj'. subst j'.
    apply In_enumerate_from in Hin. lia.
  - lia.
  - replace (vocab_size - 1 + 1) with vocab_size in H4 by lia.
    exact (conj H1 (conj H2 (conj H3 (conj H4 H5)))).
Qed.

(** ** Claims about [preprocess_text] *)

(** C8: for [vocab_size >= 1] the vocabulary built by [preprocess_text] is
    a one-to-one mapping (distinct words, distinct identifiers, inverted by
    the inverse vocabulary) from at most [vocab_size] word tokens to
    identifiers that all lie in [0 .. vocab_size - 1], and identifier 0
    belongs to ["<PAD>"] and to no other word. *)
Theorem vocabulary_bijective
        (word_tokenize : string -> list string) (lower : string -> string)
        (texts : list string) (vocab_size seq_length max_sequences : Z) :
  1 <= vocab_size ->
  let vocab :=
    build_vocab (all_tokens_of word_tokenize lower texts) vocab_size in
  (forall sequences vocab',
      preprocess_text word_tokenize lower texts vocab_size seq_length
                      max_sequences = Some (sequences, vocab') ->
      vocab' = vocab)
  /\ NoDup (Py.keys vocab)
  /\ NoDup (Py.values vocab)
  /\ (forall w1 w2 i,
         Py.lookup String.eqb vocab w1 = Some i ->
         Py.lookup String.eqb vocab w2 = Some i -> w1 = w2)
  /\ (forall w i,
         Py.lookup String.eqb vocab w = Some i ->
         Py.lookup Z.eqb (inv_vocab vocab) i = Some w)
  /\ Py.len vocab <= vocab_size
  /\ (forall w i,
         Py.lookup String.eqb vocab w = Some i -> 0 <= i <= vocab_size - 1)
  /\ Py.lookup String.eqb vocab "<PAD>"%string = Some 0
  /\ (forall w, Py.lookup String.eqb vocab w = Some 0 -> w = "<PAD>"%string).
Proof.
  intros Hsize vocab.
  destruct (build_vocab_props (all_tokens_of word_tokenize lower texts)
              vocab_size Hsize) as (Hkeys & Hvals & Hrange & Hlen & Hzero).
  fold vocab in Hkeys, Hvals, Hrange, Hlen, Hzero.
  assert (Hin : forall w i, Py.lookup String.eqb vocab w = Some i ->
                            In (w, i) vocab).
  { intros w i. apply lookup_some_In, string_eqb_eq. }
  assert (Hval : forall w i, In (w, i) vocab -> In i (Py.values vocab)).
  { intros w i Hwi. apply in_map_iff. now exists (w, i). }
  split.
  { intros sequences vocab' Hcall. unfold preprocess_text in Hcall.
    cbv zeta in Hcall. fold vocab in Hcall.
    destruct (windows _ seq_length); [|discriminate].
    now injection Hcall as _ <-. }
  split; [assumption|]. split; [assumption|]. split.
  { intros w1 w2 i H1 H2.
    apply (NoDup_snd_inj vocab w1 w2 i); auto. }
  split.
  { intros w i Hw.
    destruct (inv_fold_present vocab i (Hval _ _ (Hin _ _ Hw)) [])
      as (w' & Hw' & Hlook).
    unfold inv_vocab, Py.items. rewrite Hlook. f_equal.
    apply (NoDup_snd_inj vocab w' w i); auto. }
  split; [assumption|]. split.
  { intros w i Hw. apply Hrange. eauto. }
  split.
  { unfold vocab, build_vocab. cbv zeta.
    apply lookup_set_same, string_eqb_eq. }
  intros w Hw. apply Hzero. auto.
Qed.

Lemma vocabulary_bijective_witness :
  1 <= 3
  /\ Py.lookup String.eqb
       (build_vocab (all_tokens_of Sample.word_tokenize Sample.lower
                                   ["Save money"; "save now"]%string) 3)
       "<PAD>"%string = Some 0
  /\ Py.len (build_vocab (all_tokens_of Sample.word_tokenize Sample.lower
                                        ["Save money"; "save now"]%string) 3)
     <= 3.
Proof.
  assert (H : 1 <= 3) by lia.
  split; [exact H|].
  destruct (vocabulary_bijective Sample.word_tokenize Sample.lower
              ["Save money"; "save now"]%string 3 2 10 H)
    as (_ & _ & _ & _ & _ & Hlen & _ & Hpad & _).
  split; [exact Hpad|exact Hlen].
Defined.

Section Windows.
Variable seq_length : Z.
Hypothesis seq_length_pos : 1 <= seq_length.

(** [l[i:i + seq_length]] inside the list is the [seq_length] items from
    index [i]. *)
Lemma slice_window {A : Type} (l : list A) i :
  0 <= i -> i + seq_length <= Py.len l ->
  Py.slice l (Some i) (Some (i + seq_length))
  = firstn (Z.to_nat seq_length) (skipn (Z.to_nat i) l).
Proof.
  intros Hi Hfit. unfold Py.slice, Py.adjust_index.
  destruct (Z.ltb_spec i 0) as [?|_]; [lia|].
  destruct (Z.ltb_spec (i + seq_length) 0) as [?|_]; [lia|].
  rewrite !Z.min_l by lia. f_equal. lia.
Qed.

(** The number of window starts, for [n] identifiers. *)
Lemma range_len_windows n :
  0 <= n ->
  Py.range_len 0 (n - seq_length) seq_length
  = if n =? 0 then 0 else (n - 1) / seq_length.
Proof.
  intros Hn. unfold Py.range_len.
  destruct (Z.ltb_spec 0 seq_length) as [_|?]; [|lia].
  destruct (Z.ltb_spec seq_length 0) as [?|_]; [lia|]. cbn [andb].
  destruct (Z.ltb_spec 0 (n - seq_length)) as [Hlt|Hge].
  - destruct (Z.eqb_spec n 0) as [?|_]; [lia|].
    replace (n - 1) with (n - seq_length - 1 - 0 + 1 * seq_length) by lia.
    rewrite Z.div_add by lia. lia.
  - destruct (Z.eqb_spec n 0) as [?|Hne]; [reflexivity|].
    symmetry. apply Z.div_small. lia.
Qed.

Lemma window_count_fits n :
  0 <= n ->
  Z.of_nat (window_count n seq_length) * seq_length <= n
  /\ (1 <= n -> Z.of_nat (window_count n seq_length) * seq_length < n)
  /\ Z.of_nat (window_count n seq_length) <= n / seq_length.
Proof.
  intros Hn. unfold window_count. rewrite range_len_windows by assumption.
  destruct (Z.eqb_spec n 0) as [->|Hne].
  - simpl. split; [lia|]. split; [lia|]. now rewrite Z.div_0_l by lia.
  - assert (Hq : 0 <= (n - 1) / seq_length) by (apply Z.div_pos; lia).
    rewrite Z2Nat.id by assumption.
    pose proof (Z.mul_div_le (n - 1) seq_length ltac:(lia)) as Hmul.
    split; [lia|]. split; [lia|].
    apply Z.div_le_mono; lia.
Qed.

Lemma windows_chunks (token_ids : list Z) :
  windows token_ids seq_length
  = Some (map (chunk seq_length token_ids)
              (seq 0 (window_count (Py.len token_ids) seq_length))).
Proof.
  unfold windows, Py.range.
  destruct (Z.eqb_spec seq_length 0) as [?|_]; [lia|].
  f_equal. fold (window_count (Py.len token_ids) seq_length).
  rewrite map_map. apply map_ext_in. intros k Hk.
  apply in_seq in Hk.
  destruct (window_count_fits (Py.len token_ids) (len_nonneg token_ids))
    as (Hfit & _).
  rewrite slice_window by nia.
  unfold chunk. do 2 f_equal. nia.
Qed.

Lemma chunk_len (token_ids : list Z) k :
  Z.of_nat (S k) * seq_length <= Py.len token_ids ->
  Py.len (chunk seq_length token_ids k) = seq_length.
Proof.
  unfold Py.len, chunk. intros Hfit.
  rewrite length_firstn, length_skipn. nia.
Qed.

Lemma firstn_plus {A : Type} (l : list A) a b :
  firstn (a + b) l = firstn a l ++ firstn b (skipn a l).
Proof.
  revert l. induction a as [|a IH]; intros l; [reflexivity|].
  destruct l as [|x l]; simpl.
  - now rewrite firstn_nil.
  - now rewrite IH.
Qed.

(** The first [c] windows, laid end to end, are the first
    [c * seq_length] identifiers. *)
Lemma concat_chunks (token_ids : list Z) c :
  List.concat (map (chunk seq_length token_ids) (seq 0 c))
  = firstn (c * Z.to_nat seq_length) token_ids.
Proof.
  induction c as [|c IH]; [reflexivity|].
  rewrite seq_S, map_app, concat_app, IH. simpl.
  rewrite app_nil_r. unfold chunk.
  rewrite Nat.add_comm. symmetry. apply firstn_plus.
Qed.

Lemma firstn_seq_min m : forall s c,
  firstn m (seq s c) = seq s (Nat.min m c).
Proof.
  induction m as [|m IH]; intros s [|c]; simpl; try reflexivity.
  now rewrite IH.
Qed.

Lemma firstn_map_seq {A : Type} (f : nat -> A) m c :
  firstn m (map f (seq 0 c)) = map f (seq 0 (Nat.min m c)).
Proof.
  rewrite firstn_map. f_equal. apply firstn_seq_min.
Qed.

Lemma pad_sequence_full (s : list Z) :
  Py.len s = seq_length -> pad_sequence seq_length s = s.
Proof.
  intros Hlen. unfold pad_sequence, Py.replicate. rewrite Hlen.
  rewrite Z.sub_diag. apply app_nil_r.
Qed.

Lemma map_pad_full (l : list (list Z)) :
  Forall (fun s => Py.len s = seq_length) l ->
  map (pad_sequence seq_length) l = l.
Proof.
  induction 1 as [|s l Hs _ IH]; simpl; [reflexivity|].
  now rewrite pad_sequence_full, IH.
Qed.

Lemma chunks_full (token_ids : list Z) c :
  (c <= window_count (Py.len token_ids) seq_length)%nat ->
  Forall (fun s => Py.len s = seq_length)
         (map (chunk seq_length token_ids) (seq 0 c)).
Proof.
  intros Hc. apply Forall_forall. intros s Hs.
  apply in_map_iff in Hs. destruct Hs as (k & <- & Hk).
  apply in_seq in Hk. apply chunk_len.
  destruct (window_count_fits (Py.len token_ids) (len_nonneg token_ids))
    as (Hfit & _).
  nia.
Qed.
End Windows.

(** C10: for [seq_length >= 1] and [max_sequences >= 0], [preprocess_text]
    returns at most [max_sequences] sequences, each of exactly [seq_length]
    identifiers; every window the enumeration emits is already full, so the
    padding step changes nothing; and the identifiers after the emitted
    windows, among them the trailing ones that do not fill a window, are
    dropped. *)
Theorem sequences_full_length
        (word_tokenize : string -> list string) (lower : string -> string)
        (texts : list string) (vocab_size seq_length max_sequences : Z) :
  1 <= seq_length -> 0 <= max_sequences ->
  let vocab :=
    build_vocab (all_tokens_of word_tokenize lower texts) vocab_size in
  let token_ids :=
    map (fun token => Py.get String.eqb vocab token 0)
        (all_tokens_of word_tokenize lower texts) in
  exists raw sequences tail,
    windows token_ids seq_length = Some raw
    /\ preprocess_text word_tokenize lower texts vocab_size seq_length
                       max_sequences = Some (sequences, vocab)
    /\ Forall (fun s => Py.len s = seq_length) raw
    /\ Forall (fun s => pad_sequence seq_length s = s) raw
    /\ sequences = leading max_sequences raw
    /\ Forall (fun s => Py.len s = seq_length) sequences
    /\ Py.len sequences <= max_sequences
    /\ token_ids = List.concat raw ++ tail
    /\ Py.len token_ids mod seq_length <= Py.len tail
    /\ (exists rest, List.concat raw = List.concat sequences ++ rest).
Proof.
  intros HL HM vocab token_ids.
  set (count := window_count (Py.len token_ids) seq_length).
  set (raw := map (chunk seq_length token_ids) (seq 0 count)).
  assert (Hraw : windows token_ids seq_length = Some raw)
    by (now apply windows_chunks).
  assert (Hfull : Forall (fun s => Py.len s = seq_length) raw)
    by (apply chunks_full; [assumption|reflexivity]).
  assert (Hlead : Py.slice raw None (Some max_sequences)
                  = leading max_sequences raw)
    by (now apply slice_prefix).
  assert (Hlead_full : Forall (fun s => Py.len s = seq_length)
                              (leading max_sequences raw)).
  { apply Forall_forall. intros s Hs. rewrite Forall_forall in Hfull.
    apply Hfull. unfold leading in Hs.
    rewrite <- (firstn_skipn (Z.to_nat max_sequences) raw).
    apply in_app_iff. now left. }
  destruct (window_count_fits seq_length HL (Py.len token_ids)
              (len_nonneg token_ids)) as (Hfit & _ & Hdiv).
  fold count in Hfit, Hdiv.
  exists raw, (leading max_sequences raw),
    (skipn (count * Z.to_nat seq_length) token_ids).
  split; [exact Hraw|]. split.
  { unfold preprocess_text. cbv zeta. fold vocab. fold token_ids.
    rewrite Hraw, Hlead. now rewrite map_pad_full. }
  split; [exact Hfull|]. split.
  { apply Forall_forall. intros s Hs. rewrite Forall_forall in Hfull.
    apply pad_sequence_full. now apply Hfull. }
  split; [reflexivity|]. split; [exact Hlead_full|]. split.
  { unfold Py.len, leading. rewrite length_firstn. lia. }
  split.
  { unfold raw. rewrite concat_chunks.
    symmetry. apply firstn_skipn. }
  split.
  { unfold Py.len in *. rewrite length_skipn.
    pose proof (Z.mod_eq (Z.of_nat (List.length token_ids)) seq_length
                  ltac:(lia)) as Hmod.
    nia. }
  exists (List.concat (skipn (Z.to_nat max_sequences) raw)).
  unfold leading. rewrite <- concat_app. now rewrite firstn_skipn.
Qed.

Lemma sequences_full_length_witness :
  1 <= 3 /\ 0 <= 10
  /\ exists sequences vocab,
       preprocess_text Sample.word_tokenize Sample.lower
                       ["a b a c b a d d"; "a"]%string 4 3 10
       = Some (sequences, vocab)
       /\ Forall (fun s => Py.len s = 3) sequences
       /\ Py.len sequences <= 10.
Proof.
  assert (H1 : 1 <= 3) by lia.
  assert (H2 : 0 <= 10) by lia.
  split; [exact H1|]. split; [exact H2|].
  destruct (sequences_full_length Sample.word_tokenize Sample.lower
              ["a b a c b a d d"; "a"]%string 4 3 10 H1 H2)
    as (raw & sequences & tail & _ & Hcall & _ & _ & _ & Hfull & Hlen & _).
  eauto.
Defined.

(** With nine identifiers and [seq_length = 3] there are three full
    windows, and the enumeration emits two: the strict bound
    [len(token_ids) - seq_length] also leaves out a last window that is
    full. *)
Lemma last_full_window_left_out :
  preprocess_text Sample.word_tokenize Sample.lower
                  ["a b a c b a d d"; "a"]%string 4 3 10
  = Some ([[1; 2; 1]; [0; 2; 1]],
          [("a", 1); ("b", 2); ("d", 3); ("<PAD>", 0)]%string).
Proof. vm_compute. reflexivity. Qed.

(** ** The returned string, read back word by word *)

Section SplitJoin.

Lemma append_empty_r (s : string) : (s ++ "")%string = s.
Proof. induction s as [|c s IH]; simpl; [reflexivity|now rewrite IH]. Qed.

Lemma append_assoc_string (a b c : string) :
  ((a ++ b) ++ c)%string = (a ++ b ++ c)%string.
Proof. induction a as [|x a IH]; simpl; [reflexivity|now rewrite IH]. Qed.

(** Reading a space-free word extends the word being accumulated. *)
Lemma split_from_word (w : string) :
  Sample.no_space w = true ->
  forall cur rest,
    Sample.split_from cur (w ++ rest)
    = Sample.split_from (cur ++ w) rest.
Proof.
  induction w as [|c w IH]; simpl; intros Hw cur rest.
  - now rewrite append_empty_r.
  - apply andb_prop in Hw. destruct Hw as [Hc Hw].
    apply negb_true_iff in Hc. rewrite Hc, (IH Hw).
    now rewrite append_assoc_string.
Qed.

Lemma split_from_end (w : string) :
  Sample.word_ok w = true -> Sample.split_from w "" = [w].
Proof. destruct w; [discriminate|reflexivity]. Qed.

Lemma split_from_space (w rest : string) :
  Sample.word_ok w = true ->
  Sample.split_from w (String " " rest)
  = w :: Sample.split_from "" rest.
Proof. destruct w; [discriminate|reflexivity]. Qed.

Lemma word_ok_no_space (w : string) :
  Sample.word_ok w = true -> Sample.no_space w = true.
Proof. destruct w; [discriminate|auto]. Qed.

(** Splitting a space-joined list of well-formed words on spaces gives the
    list back. *)
Lemma split_join (words : list string) :
  Forall (fun w => Sample.word_ok w = true) words ->
  Sample.word_tokenize (Py.join " " words) = words.
Proof.
  unfold Sample.word_tokenize.
  induction 1 as [|w words Hw Hwords IH]; [reflexivity|].
  destruct words as [|w' words].
  - simpl. rewrite <- (append_empty_r w) at 1.
    rewrite split_from_word by (now apply word_ok_no_space).
    now apply split_from_end.
  - change (Py.join " " (w :: w' :: words))
      with (w ++ String " " (Py.join " " (w' :: words)))%string.
    rewrite split_from_word by (now apply word_ok_no_space).
    simpl append at 1. rewrite split_from_space by assumption.
    now rewrite IH.
Qed.

Lemma render_word_ok (vocab : Py.dict string Z) (tokens : list Z) :
  Forall (fun w => Sample.word_ok w = true) (Py.keys vocab) ->
  Forall (fun w => Sample.word_ok w = true) (render vocab tokens).
Proof.
  intros Hvocab. apply Forall_forall. intros w Hw.
  unfold render in Hw. apply in_map_iff in Hw. destruct Hw as (t & <- & _).
  destruct (in_dec Z.eq_dec t (Py.values vocab)) as [Hin|Hnin].
  - apply inv_vocab_present in Hin. rewrite Forall_forall in Hvocab.
    apply Hvocab. apply in_map_iff.
    now exists (Py.get Z.eqb (inv_vocab vocab) t PAD, t).
  - now rewrite inv_vocab_absent.
Qed.
End SplitJoin.

(** When no word of the vocabulary is empty or contains a space, the
    string [generate_text] returns splits on spaces into the rendered
    tokens: [(seq_length - 1) + length] words. *)
Lemma generate_text_split_count
      (word_tokenize : string -> list string) (lower : string -> string)
      (model : list Z -> Np.tensor) (vocab : Py.dict string Z)
      (seed_text : string) (seq_length length : Z) (temperature : R) :
  well_shaped model -> 0 <= length -> 1 <= seq_length ->
  Forall (fun w => Sample.word_ok w = true) (Py.keys vocab) ->
  exists text,
    generate_text word_tokenize lower model vocab seed_text seq_length
                  length temperature = Some text
    /\ Py.len (Sample.word_tokenize text) = (seq_length - 1) + length.
Proof.
  intros Hshape Hlen HL Hvocab.
  destruct (generate_text_run word_tokenize lower model vocab seed_text
              seq_length length temperature Hshape)
    as (gen & _ & Hgen & _ & Htext).
  eexists. split; [exact Htext|].
  rewrite split_join by (now apply render_word_ok).
  rewrite render_len, len_app, Hgen.
  rewrite initial_tokens_len by assumption. lia.
Qed.

(** The worked example: vocabulary [{"save": 1, "money": 2, "now": 3,
    "<PAD>": 0}], [seq_length = 4], seed "save money", [length = 2], and a
    model that always prefers identifier 1. *)
Lemma sample_next_token (temperature : R) (window : list Z) :
  (0 < temperature)%R ->
  next_token temperature (Sample.model window) = Some 1.
Proof.
  intros HT. rewrite next_token_argmax.
  - unfold Sample.model. simpl.
    destruct (Rlt_dec 0 1) as [_|Hn]; [reflexivity|]. exfalso. lra.
  - assumption.
  - unfold Sample.model. repeat constructor; lra.
Qed.

Lemma sample_generate_text :
  generate_text Sample.word_tokenize Sample.lower Sample.model Sample.vocab
                "Save money" 4 2 (7 / 10)%R
  = Some "save money <PAD> save save"%string.
Proof.
  assert (HT : (0 < 7 / 10)%R) by lra.
  unfold generate_text.
  change (Z.to_nat 2) with 2%nat.
  replace (initial_tokens Sample.word_tokenize Sample.lower Sample.vocab
             "Save money" 4) with [1; 2; 0] by (vm_compute; reflexivity).
  unfold decode_loop, decode_step.
  rewrite !(sample_next_token _ _ HT). simpl app.
  vm_compute. reflexivity.
Qed.

(** ** Outside the preconditions

    What the code does for parameter values the theorems above leave out. *)

(** [seq_length = 0]: the bound of [tokens[:seq_length - 1]] is [-1], the
    seed loses its last identifier and nothing is padded. *)
Lemma seq_length_zero_state :
  initial_tokens Sample.word_tokenize Sample.lower Sample.vocab
                 "save money now" 0 = [1; 2].
Proof. vm_compute. reflexivity. Qed.

(** [seq_length = 0] in [preprocess_text]: [range] with a zero step
    raises. *)
Lemma seq_length_zero_raises :
  preprocess_text Sample.word_tokenize Sample.lower
                  ["a b a c b a d d"; "a"]%string 4 0 10 = None.
Proof. vm_compute. reflexivity. Qed.

(** [vocab_size = 0]: no word is kept, ["<PAD>"] still is. *)
Lemma vocab_size_zero_vocab :
  build_vocab ["a"; "b"; "a"]%string 0 = [("<PAD>", 0)]%string.
Proof. vm_compute. reflexivity. Qed.

(** [max_sequences = -1]: the slice drops the last of the four windows. *)
Lemma negative_cap_drops_last :
  preprocess_text Sample.word_tokenize Sample.lower
                  ["a b a c b a d d"; "a"]%string 3 2 (-1)
  = Some ([[1; 2]; [1; 0]; [2; 1]],
          [("a", 1); ("b", 2); ("<PAD>", 0)]%string).
Proof. vm_compute. reflexivity. Qed.

(** * Further properties *)

(** ** The corpus filter [load_openwebtext_financial] *)

Section Substring.

Lemma prefix_app (sub s : string) :
  String.prefix sub s = true <-> exists post, s = (sub ++ post)%string.
Proof.
  revert s. induction sub as [|a sub IH]; intros s.
  - split; [intros _; now exists s|intros _; now destruct s].
  - destruct s as [|b s]; simpl.
    + split; [discriminate|]. intros [post Hpost]. discriminate.
    + destruct (ascii_dec a b) as [->|Hne].
      * rewrite IH. split; intros [post Hpost]; exists post; congruence.
      * split; [discriminate|]. intros [post Hpost]. congruence.
Qed.

(** [sub in s] holds exactly when [s] is some text, then [sub], then some
    text. *)
Lemma contains_spec (sub s : string) :
  PyStr.contains sub s = true
  <-> exists pre post, s = (pre ++ sub ++ post)%string.
Proof.
  induction s as [|c s IH].
  - change (PyStr.contains sub EmptyString)
      with (String.prefix sub EmptyString || false).
    rewrite orb_false_r, prefix_app. split.
    + intros [post Hpost]. now exists EmptyString, post.
    + intros (pre & post & Heq). destruct pre as [|x pre]; [|discriminate].
      now exists post.
  - change (PyStr.contains sub (String c s))
      with (String.prefix sub (String c s) || PyStr.contains sub s).
    rewrite orb_true_iff, prefix_app, IH. split.
    + intros [[post Hpost]|(pre & post & Heq)].
      * now exists EmptyString, post.
      * exists (String c pre), post. simpl. now rewrite Heq.
    + intros (pre & post & Heq). destruct pre as [|x pre].
      * left. now exists post.
      * right. simpl in Heq. injection Heq as _ Heq. now exists pre, post.
Qed.
End Substring.

Section LoaderFacts.
Variable lower : string -> string.

(** X1: a text is kept exactly when its lower-cased form contains one of
    the ten keywords as a substring, anywhere, also inside a longer
    word. *)
Theorem is_financial_substring (text : string) :
  is_financial lower text = true
  <-> exists keyword pre post,
        In keyword financial_keywords
        /\ lower text = (pre ++ keyword ++ post)%string.
Proof.
  unfold is_financial. rewrite existsb_exists. split.
  - intros (keyword & Hin & Hsub). apply contains_spec in Hsub.
    destruct Hsub as (pre & post & Heq). now exists keyword, pre, post.
  - intros (keyword & pre & post & Hin & Heq). exists keyword.
    split; [assumption|]. apply contains_spec. now exists pre, post.
Qed.

Lemma batches_from_concat batch_size : forall dataset financial_texts,
  List.concat (batches_from lower batch_size financial_texts dataset)
  = financial_texts ++ filter (is_financial lower) dataset.
Proof.
  induction dataset as [|text dataset IH]; intros acc; simpl.
  - destruct acc; simpl; [reflexivity|]. now rewrite !app_nil_r.
  - destruct (is_financial lower text); [|apply IH].
    destruct (Py.len (acc ++ [text]) >=? batch_size); simpl.
    + rewrite IH. simpl. now rewrite <- app_assoc.
    + rewrite IH. now rewrite <- app_assoc.
Qed.

(** X2: the batches, laid end to end, are exactly the financial texts of
    the dataset in their original order: nothing is lost, repeated or
    reordered, whatever [batch_size] is. *)
Theorem batches_cover_filter (dataset : list string) (batch_size : Z) :
  List.concat (load_openwebtext_financial lower dataset batch_size)
  = filter (is_financial lower) dataset
  /\ Forall (Forall (fun text => is_financial lower text = true))
            (load_openwebtext_financial lower dataset batch_size).
Proof.
  assert (Hcat : List.concat
                   (load_openwebtext_financial lower dataset batch_size)
                 = filter (is_financial lower) dataset)
    by apply (batches_from_concat batch_size dataset []).
  split; [exact Hcat|].
  apply Forall_forall. intros batch Hbatch.
  apply Forall_forall. intros text Htext.
  assert (Hin : In text (filter (is_financial lower) dataset)).
  { rewrite <- Hcat. apply in_concat. now exists batch. }
  now apply filter_In in Hin.
Qed.

Lemma batches_from_sizes batch_size :
  1 <= batch_size ->
  forall dataset financial_texts,
    Py.len financial_texts < batch_size ->
    exists full partial,
      batches_from lower batch_size financial_texts dataset
      = full ++ partial
      /\ Forall (fun batch => Py.len batch = batch_size) full
      /\ (partial = []
          \/ exists batch,
               partial = [batch] /\ 1 <= Py.len batch < batch_size).
Proof.
  intros Hsize. induction dataset as [|text dataset IH]; intros acc Hacc.
  - simpl. destruct acc as [|t acc].
    + exists [], []. repeat split; auto.
    + exists [], [t :: acc]. repeat split; auto. right.
      exists (t :: acc). split; [reflexivity|].
      unfold Py.len in *. simpl in *. lia.
  - simpl. destruct (is_financial lower text); [|now apply IH].
    assert (Hlen : Py.len (acc ++ [text]) = Py.len acc + 1)
      by (rewrite len_app; reflexivity).
    destruct (Z.geb_spec (Py.len (acc ++ [text])) batch_size) as [Hge|Hlt].
    + destruct (IH []) as (full & partial & Heq & Hfull & Hpartial).
      { unfold Py.len. simpl. lia. }
      exists ((acc ++ [text]) :: full), partial. rewrite Heq.
      split; [reflexivity|]. split; [|assumption].
      constructor; [lia|assumption].
    + apply IH. lia.
Qed.

(** X3: for [batch_size >= 1] no batch is empty or longer than
    [batch_size]; every batch has exactly [batch_size] texts, except
    possibly the last one, which may be shorter. *)
Theorem batches_sizes (dataset : list string) (batch_size : Z) :
  1 <= batch_size ->
  exists full partial,
    load_openwebtext_financial lower dataset batch_size = full ++ partial
    /\ Forall (fun batch => Py.len batch = batch_size) full
    /\ (partial = []
        \/ exists batch,
             partial = [batch] /\ 1 <= Py.len batch < batch_size).
Proof.
  intros Hsize. apply batches_from_sizes; [assumption|].
  unfold Py.len. simpl. lia.
Qed.

(** X4: for [batch_size <= 1], zero and negative values included, every
    financial text is yielded as a batch of its own. *)
Theorem batches_singletons (dataset : list string) (batch_size : Z) :
  batch_size <= 1 ->
  load_openwebtext_financial lower dataset batch_size
  = map (fun text => [text]) (filter (is_financial lower) dataset).
Proof.
  intros Hsize. unfold load_openwebtext_financial.
  induction dataset as [|text dataset IH]; simpl; [reflexivity|].
  destruct (is_financial lower text); [|exact IH].
  match goal with
  | |- context [?n >=? batch_size] =>
      destruct (Z.geb_spec n batch_size) as [_|Hlt]
  end.
  - simpl. now rewrite IH.
  - unfold Py.len in Hlt. simpl in Hlt. lia.
Qed.

Lemma batches_from_first batch_size : forall dataset financial_texts,
  Py.len financial_texts < Z.max batch_size 1 ->
  next_batch (batches_from lower batch_size financial_texts dataset)
  = match financial_texts ++ filter (is_financial lower) dataset with
    | [] => None
    | t :: l => Some (firstn (Z.to_nat (Z.max batch_size 1)) (t :: l))
    end.
Proof.
  induction dataset as [|text dataset IH]; intros acc Hacc.
  - simpl. rewrite app_nil_r. destruct acc as [|t acc]; [reflexivity|].
    simpl next_batch. f_equal. symmetry. apply firstn_all2.
    unfold Py.len in Hacc. lia.
  - simpl. destruct (is_financial lower text); [|now apply IH].
    assert (Hlen : Py.len (acc ++ [text]) = Py.len acc + 1)
      by (rewrite len_app; reflexivity).
    destruct (Z.geb_spec (Py.len (acc ++ [text])) batch_size) as [Hge|Hlt].
    + simpl next_batch.
      replace (acc ++ text :: filter (is_financial lower) dataset)
        with ((acc ++ [text]) ++ filter (is_financial lower) dataset)
        by (now rewrite <- app_assoc).
      destruct ((acc ++ [text]) ++ filter (is_financial lower) dataset)
        as [|t l] eqn:E; [now destruct acc|].
      rewrite <- E. f_equal.
      rewrite firstn_app.
      replace (Z.to_nat (Z.max batch_size 1) - List.length (acc ++ [text]))%nat
        with 0%nat by (unfold Py.len in *; lia).
      simpl. rewrite app_nil_r. symmetry. apply firstn_all2.
      unfold Py.len in *. lia.
    + rewrite IH by lia. now rewrite <- app_assoc.
Qed.

(** X5: [next] on a fresh generator raises [StopIteration] when the
    dataset has no financial text, and otherwise hands over the first
    [max batch_size 1] financial texts (all of them when there are
    fewer). *)
Theorem first_batch (dataset : list string) (batch_size : Z) :
  next_batch (load_openwebtext_financial lower dataset batch_size)
  = match filter (is_financial lower) dataset with
    | [] => None
    | t :: l => Some (firstn (Z.to_nat (Z.max batch_size 1)) (t :: l))
    end.
Proof.
  unfold load_openwebtext_financial.
  rewrite batches_from_first; [reflexivity|].
  unfold Py.len. simpl. lia.
Qed.
End LoaderFacts.

(** ** More on the vocabulary of [preprocess_text] *)

Section CounterFacts.

Lemma In_lookup {V : Type} (d : Py.dict string V) k v :
  NoDup (Py.keys d) -> In (k, v) d -> Py.lookup String.eqb d k = Some v.
Proof.
  induction d as [|[k' v'] d IH]; simpl; intros Hnd Hin; [destruct Hin|].
  inversion Hnd as [|? ? Hnin Hnd']; subst.
  destruct Hin as [[= -> ->]|Hin].
  - now rewrite String.eqb_refl.
  - destruct (String.eqb_spec k' k) as [->|_]; [|now apply IH].
    exfalso. apply Hnin. apply in_map_iff. now exists (k, v).
Qed.

Lemma lookup_None_keys {V : Type} (d : Py.dict string V) k :
  Py.lookup String.eqb d k = None <-> ~ In k (Py.keys d).
Proof.
  induction d as [|[k' v'] d IH]; simpl; [tauto|].
  destruct (String.eqb_spec k' k) as [->|Hne].
  - split; [discriminate|tauto].
  - rewrite IH. tauto.
Qed.

Lemma bump_lookup (d : Py.dict string Z) w w' :
  Py.lookup String.eqb (Py.bump d w) w'
  = if String.eqb w w'
    then Some (match Py.lookup String.eqb d w with
               | Some c => c + 1
               | None => 1
               end)
    else Py.lookup String.eqb d w'.
Proof.
  induction d as [|[k c] d IH]; simpl.
  - reflexivity.
  - destruct (String.eqb_spec k w) as [->|Hkw]; simpl.
    + destruct (String.eqb_spec w w') as [->|Hww']; reflexivity.
    + destruct (String.eqb_spec k w') as [->|Hkw'].
      * destruct (String.eqb_spec w w') as [->|_]; [congruence|reflexivity].
      * exact IH.
Qed.

(** How often [w] occurs in [l]. *)
Lemma fold_bump_lookup (l : list string) w : forall d,
  Py.lookup String.eqb (fold_left Py.bump l d) w
  = match Py.lookup String.eqb d w with
    | Some c => Some (c + Z.of_nat (count_occ string_dec l w))
    | None =>
        if (count_occ string_dec l w =? 0)%nat then None
        else Some (Z.of_nat (count_occ string_dec l w))
    end.
Proof.
  induction l as [|x l IH]; intros d; simpl.
  - destruct (Py.lookup String.eqb d w); [f_equal; lia|reflexivity].
  - rewrite IH, bump_lookup.
    destruct (string_dec x w) as [->|Hne].
    + rewrite String.eqb_refl.
      destruct (Py.lookup String.eqb d w); cbv beta iota.
      * f_equal. lia.
      * change (S (count_occ string_dec l w) =? 0)%nat with false.
        cbv iota. f_equal. lia.
    + destruct (String.eqb_spec x w) as [?|_]; [contradiction|].
      reflexivity.
Qed.

(** A [Counter] maps each word of the list to its number of occurrences
    and has no other key. *)
Lemma Counter_lookup (l : list string) w :
  Py.lookup String.eqb (Py.Counter l) w
  = if (count_occ string_dec l w =? 0)%nat then None
    else Some (Z.of_nat (count_occ string_dec l w)).
Proof. unfold Py.Counter. now rewrite fold_bump_lookup. Qed.

Lemma Counter_keys (l : list string) w :
  In w (Py.keys (Py.Counter l)) <-> In w l.
Proof.
  rewrite (count_occ_In string_dec l w).
  pose proof (lookup_None_keys (Py.Counter l) w) as Hnone.
  rewrite Counter_lookup in Hnone.
  destruct (Nat.eqb_spec (count_occ string_dec l w) 0) as [H0|Hpos].
  - split; [|lia]. intros Hin. exfalso. now apply Hnone.
  - split; [lia|]. intros _.
    destruct (in_dec string_dec w (Py.keys (Py.Counter l))) as [Hin|Hnin];
      [assumption|].
    apply Hnone in Hnin. discriminate.
Qed.

Lemma Counter_items (l : list string) w c :
  In (w, c) (Py.Counter l) -> c = Z.of_nat (count_occ string_dec l w).
Proof.
  intros Hin. apply In_lookup in Hin; [|apply Counter_NoDup].
  rewrite Counter_lookup in Hin.
  destruct (count_occ string_dec l w =? 0)%nat; congruence.
Qed.

Lemma insert_desc_sorted x l :
  StronglySorted (fun a b => snd b <= snd a) l ->
  StronglySorted (fun a b => snd b <= snd a) (Py.insert_desc x l).
Proof.
  induction 1 as [|y l Hl IH Hy]; simpl.
  - repeat constructor.
  - destruct (Z.ltb_spec (snd x) (snd y)) as [Hlt|Hge].
    + constructor; [assumption|].
      apply Forall_forall. intros z Hz.
      apply (Permutation_in _ (Permutation_sym (insert_desc_perm x l))) in Hz.
      destruct Hz as [<-|Hz]; [lia|].
      rewrite Forall_forall in Hy. now apply Hy.
    + constructor; [now constructor|].
      constructor; [assumption|].
      apply Forall_forall. intros z Hz. rewrite Forall_forall in Hy.
      specialize (Hy z Hz). lia.
Qed.

Lemma sorted_desc_sorted l :
  StronglySorted (fun a b => snd b <= snd a) (Py.sorted_desc l).
Proof.
  induction l as [|x l IH]; simpl; [constructor|].
  now apply insert_desc_sorted.
Qed.

Lemma StronglySorted_app_le {A : Type} (R : A -> A -> Prop) l1 l2 x y :
  StronglySorted R (l1 ++ l2) -> In x l1 -> In y l2 -> R x y.
Proof.
  induction l1 as [|a l1 IH]; simpl; intros Hs Hx Hy; [destruct Hx|].
  inversion Hs as [|? ? Hs' Ha]; subst.
  destruct Hx as [->|Hx]; [|now apply IH].
  rewrite Forall_forall in Ha. apply Ha, in_app_iff. now right.
Qed.

Lemma StronglySorted_nth {A : Type} (R : A -> A -> Prop) l :
  StronglySorted R l ->
  forall a b x y, (a < b)%nat ->
    nth_error l a = Some x -> nth_error l b = Some y -> R x y.
Proof.
  induction 1 as [|z l Hl IH Hz]; intros a b x y Hab Ha Hb.
  - now destruct a.
  - destruct b as [|b]; [lia|]. simpl in Hb.
    destruct a as [|a]; simpl in Ha.
    + injection Ha as ->. rewrite Forall_forall in Hz.
      apply Hz. eapply nth_error_In. eassumption.
    + apply (IH a b); [lia|assumption|assumption].
Qed.

Lemma StronglySorted_firstn {A : Type} (R : A -> A -> Prop) n l :
  StronglySorted R l -> StronglySorted R (firstn n l).
Proof.
  intros Hs. revert n. induction Hs as [|z l Hl IH Hz]; intros [|n]; simpl;
    try constructor.
  - apply IH.
  - apply Forall_forall. intros y Hy. rewrite Forall_forall in Hz.
    apply Hz. rewrite <- (firstn_skipn n l). apply in_app_iff. now left.
Qed.
End CounterFacts.

Section VocabularyContents.
Variable all_tokens : list string.
Variable vocab_size : Z.

Lemma In_firstn {A : Type} n (l : list A) x : In x (firstn n l) -> In x l.
Proof.
  intros Hin. rewrite <- (firstn_skipn n l). apply in_app_iff. now left.
Qed.

Lemma kept_items_sorted :
  StronglySorted (fun a b => snd b <= snd a)
                 (Py.most_common (Py.Counter all_tokens) (vocab_size - 1)).
Proof.
  unfold Py.most_common. destruct (vocab_size - 1 <=? 0); [constructor|].
  apply StronglySorted_firstn, sorted_desc_sorted.
Qed.

Lemma kept_items_counts w c :
  In (w, c) (Py.most_common (Py.Counter all_tokens) (vocab_size - 1)) ->
  c = Z.of_nat (count_occ string_dec all_tokens w).
Proof.
  unfold Py.most_common. destruct (vocab_size - 1 <=? 0); [intros []|].
  intros Hin. apply Counter_items. apply In_firstn in Hin.
  exact (Permutation_in _ (Permutation_sym (sorted_desc_perm _)) Hin).
Qed.

(** A corpus word that is not kept occurs at most as often as any kept
    word. *)
Lemma kept_words_most_frequent w w' :
  In w (map fst (Py.most_common (Py.Counter all_tokens) (vocab_size - 1))) ->
  In w' all_tokens ->
  ~ In w' (map fst (Py.most_common (Py.Counter all_tokens)
                                   (vocab_size - 1))) ->
  In w all_tokens
  /\ Z.of_nat (count_occ string_dec all_tokens w')
     <= Z.of_nat (count_occ string_dec all_tokens w).
Proof.
  intros Hw Hw' Hnot.
  apply in_map_iff in Hw. destruct Hw as ([w0 c] & Heq & Hw).
  simpl in Heq. subst w0.
  pose proof (kept_items_counts w c Hw) as Hc.
  revert Hw Hnot. unfold Py.most_common.
  destruct (vocab_size - 1 <=? 0); [intros []|]. intros Hw Hnot.
  set (sorted := Py.sorted_desc (Py.items (Py.Counter all_tokens))) in *.
  set (n := Z.to_nat (vocab_size - 1)) in *.
  assert (Hsorted : StronglySorted (fun a b => snd b <= snd a)
                                   (firstn n sorted ++ skipn n sorted)).
  { rewrite firstn_skipn. apply sorted_desc_sorted. }
  assert (Hkey : In w' (Py.keys (Py.Counter all_tokens)))
    by (now apply Counter_keys).
  apply in_map_iff in Hkey. destruct Hkey as ([w0 c'] & Heq & Hin').
  simpl in Heq. subst w0.
  pose proof (Counter_items _ _ _ Hin') as Hc'.
  apply (Permutation_in _ (sorted_desc_perm _)) in Hin'.
  change (In (w', c') sorted) in Hin'.
  rewrite <- (firstn_skipn n sorted) in Hin'.
  apply in_app_iff in Hin'. destruct Hin' as [Hfirst|Hrest].
  - exfalso. apply Hnot. apply in_map_iff. now exists (w', c').
  - split.
    + apply Counter_keys. apply in_map_iff. exists (w, c).
      split; [reflexivity|]. apply In_firstn in Hw.
      exact (Permutation_in _ (Permutation_sym (sorted_desc_perm _)) Hw).
    + pose proof (StronglySorted_app_le _ _ _ _ _ Hsorted Hw Hrest) as Hle.
      simpl in Hle. lia.
Qed.

(** The entries of the vocabulary: every kept word with its rank, counted
    from 1, except that ["<PAD>"] has identifier 0. *)
Lemma build_vocab_cases :
  let words :=
    map fst (Py.most_common (Py.Counter all_tokens) (vocab_size - 1)) in
  let entries :=
    map (fun iw : Z * string => (snd iw, fst iw + 1)) (Py.enumerate words) in
  (~ In PAD words /\ build_vocab all_tokens vocab_size = entries ++ [(PAD, 0)])
  \/ (exists d1 v' d2,
         entries = d1 ++ (PAD, v') :: d2
         /\ build_vocab all_tokens vocab_size = d1 ++ (PAD, 0) :: d2).
Proof.
  intros words entries. rewrite build_vocab_entries. fold words. fold entries.
  assert (Hkeys : Py.keys entries = words).
  { unfold Py.keys, entries, Py.enumerate. rewrite map_map. simpl.
    apply map_snd_enumerate_from. }
  destruct (set_cases String.eqb string_eqb_eq entries PAD 0)
    as [[Hfresh Heq]|(d1 & v' & d2 & Hd & _ & Heq)].
  - left. rewrite <- Hkeys. now split.
  - right. now exists d1, v', d2.
Qed.

Lemma nth_error_enumerate_from {A : Type} (l : list A) : forall i j x,
  In (j, x) (Py.enumerate_from i l)
  <-> i <= j /\ nth_error l (Z.to_nat (j - i)) = Some x.
Proof.
  induction l as [|y l IH]; intros i j x; simpl.
  - split; [tauto|]. intros [_ H]. now destruct (Z.to_nat (j - i)).
  - rewrite IH. split.
    + intros [[= <- <-]|[Hle Hnth]].
      * rewrite Z.sub_diag. simpl. split; [lia|reflexivity].
      * split; [lia|].
        replace (Z.to_nat (j - i)) with (S (Z.to_nat (j - (i + 1)))) by lia.
        exact Hnth.
    + intros [Hle Hnth]. destruct (Z.eq_dec i j) as [->|Hne].
      * left. rewrite Z.sub_diag in Hnth. simpl in Hnth. congruence.
      * right. split; [lia|].
        replace (Z.to_nat (j - i)) with (S (Z.to_nat (j - (i + 1))))
          in Hnth by lia.
        exact Hnth.
Qed.

(** A word other than ["<PAD>"] has identifier [i] exactly when it is the
    [i]-th most common word. *)
Lemma build_vocab_rank w i :
  w <> PAD ->
  (In (w, i) (build_vocab all_tokens vocab_size)
   <-> 1 <= i
       /\ nth_error
            (map fst (Py.most_common (Py.Counter all_tokens)
                                     (vocab_size - 1)))
            (Z.to_nat (i - 1)) = Some w).
Proof.
  intros Hw.
  set (words := map fst (Py.most_common (Py.Counter all_tokens)
                                        (vocab_size - 1))).
  set (entries := map (fun iw : Z * string => (snd iw, fst iw + 1))
                      (Py.enumerate words)).
  assert (Hentries : In (w, i) entries
                     <-> 1 <= i /\ nth_error words (Z.to_nat (i - 1)) = Some w).
  { unfold entries, Py.enumerate. rewrite in_map_iff. split.
    - intros ([j x] & Heq & Hin). simpl in Heq. injection Heq as -> <-.
      apply nth_error_enumerate_from in Hin. destruct Hin as [Hj Hnth].
      split; [lia|]. now replace (j + 1 - 1) with (j - 0) by lia.
    - intros [Hi Hnth]. exists (i - 1, w). split; [simpl; f_equal; lia|].
      apply nth_error_enumerate_from. split; [lia|].
      now replace (i - 1 - 0) with (i - 1) by lia. }
  rewrite <- Hentries.
  destruct build_vocab_cases as [[_ ->]|(d1 & v' & d2 & Hd & ->)].
  - fold words. fold entries. rewrite in_app_iff. simpl. split.
    + intros [H|[[= <- _]|[]]]; [assumption|contradiction].
    + tauto.
  - fold words in Hd. fold entries in Hd. rewrite Hd, !in_app_iff. simpl.
    split.
    + intros [H|[[= <- _]|H]]; [tauto|contradiction|tauto].
    + intros [H|[[= <- _]|H]]; [tauto|contradiction|tauto].
Qed.
End VocabularyContents.

Lemma build_vocab_pad (all_tokens : list string) (vocab_size : Z) :
  Py.lookup String.eqb (build_vocab all_tokens vocab_size) PAD = Some 0.
Proof.
  unfold build_vocab. cbv zeta. apply lookup_set_same, string_eqb_eq.
Qed.

Lemma lookup_In_keys {V : Type} (d : Py.dict string V) k :
  Py.lookup String.eqb d k <> None <-> In k (Py.keys d).
Proof.
  pose proof (lookup_None_keys d k) as H.
  destruct (in_dec string_dec k (Py.keys d)) as [Hin|Hnin].
  - split; [auto|]. intros _ Hnone. now apply H in Hnone.
  - split; [|contradiction]. intros Hne. exfalso. apply Hne. now apply H.
Qed.

Lemma lookup_not_None_In {V : Type} (d : Py.dict string V) k :
  Py.lookup String.eqb d k <> None -> exists v, In (k, v) d.
Proof.
  destruct (Py.lookup String.eqb d k) as [v|] eqn:E; [|congruence].
  intros _. exists v. now apply (lookup_some_In String.eqb string_eqb_eq).
Qed.

(** X7: identifiers are frequency ranks: of two words with identifiers
    [1 <= i < j], the one with the smaller identifier occurs at least as
    often in the corpus. *)
Theorem identifiers_rank_by_frequency
        (all_tokens : list string) (vocab_size : Z) (w1 w2 : string)
        (i j : Z) :
  Py.lookup String.eqb (build_vocab all_tokens vocab_size) w1 = Some i ->
  Py.lookup String.eqb (build_vocab all_tokens vocab_size) w2 = Some j ->
  1 <= i < j ->
  Z.of_nat (count_occ string_dec all_tokens w2)
  <= Z.of_nat (count_occ string_dec all_tokens w1).
Proof.
  intros H1 H2 Hij.
  assert (Hne : forall w k, Py.lookup String.eqb
                              (build_vocab all_tokens vocab_size) w = Some k ->
                            1 <= k -> w <> PAD).
  { intros w k Hw Hk ->. rewrite build_vocab_pad in Hw.
    injection Hw as <-. lia. }
  pose proof (Hne _ _ H1 ltac:(lia)) as Hw1.
  pose proof (Hne _ _ H2 ltac:(lia)) as Hw2.
  apply (lookup_some_In String.eqb string_eqb_eq) in H1, H2.
  apply build_vocab_rank in H1, H2; try assumption.
  destruct H1 as [_ H1], H2 as [_ H2].
  rewrite nth_error_map in H1, H2.
  destruct (nth_error _ (Z.to_nat (i - 1))) as [[x1 c1]|] eqn:E1;
    [|discriminate].
  destruct (nth_error _ (Z.to_nat (j - 1))) as [[x2 c2]|] eqn:E2;
    [|discriminate].
  simpl in H1, H2. injection H1 as ->. injection H2 as ->.
  pose proof (kept_items_counts all_tokens vocab_size _ _
                (nth_error_In _ _ E1)) as Hc1.
  pose proof (kept_items_counts all_tokens vocab_size _ _
                (nth_error_In _ _ E2)) as Hc2.
  pose proof (StronglySorted_nth _ _ (kept_items_sorted all_tokens vocab_size)
                (Z.to_nat (i - 1)) (Z.to_nat (j - 1)) _ _ ltac:(lia) E1 E2)
    as Hle.
  simpl in Hle. lia.
Qed.

Lemma identifiers_rank_by_frequency_witness :
  Z.of_nat (count_occ string_dec ["a"; "b"; "a"; "c"; "b"; "a"]%string
                      "b"%string)
  <= Z.of_nat (count_occ string_dec ["a"; "b"; "a"; "c"; "b"; "a"]%string
                         "a"%string).
Proof.
  apply (identifiers_rank_by_frequency
           ["a"; "b"; "a"; "c"; "b"; "a"]%string 3 "a"%string "b"%string 1 2).
  - vm_compute. reflexivity.
  - vm_compute. reflexivity.
  - lia.
Defined.

Section VocabularySize.
Variable all_tokens : list string.
Variable vocab_size : Z.

Lemma kept_words_in_corpus w :
  In w (map fst (Py.most_common (Py.Counter all_tokens) (vocab_size - 1))) ->
  In w all_tokens.
Proof.
  intros Hw. apply Counter_keys.
  apply in_map_iff in Hw. destruct Hw as (item & <- & Hitem).
  apply in_map. unfold Py.most_common in Hitem.
  destruct (vocab_size - 1 <=? 0); [destruct Hitem|].
  apply In_firstn in Hitem.
  exact (Permutation_in _ (Permutation_sym (sorted_desc_perm _)) Hitem).
Qed.

(** The number of kept words. *)
Lemma kept_words_len :
  Py.len (map fst (Py.most_common (Py.Counter all_tokens) (vocab_size - 1)))
  = Z.max 0 (Z.min (vocab_size - 1)
                   (Z.of_nat (List.length (nodup string_dec all_tokens)))).
Proof.
  assert (Hdistinct : List.length (Py.sorted_desc
                                     (Py.items (Py.Counter all_tokens)))
                      = List.length (nodup string_dec all_tokens)).
  { rewrite <- (Permutation_length (sorted_desc_perm _)).
    unfold Py.items. rewrite <- (length_map fst).
    apply Permutation_length, NoDup_Permutation.
    - apply Counter_NoDup.
    - apply NoDup_nodup.
    - intros w. rewrite nodup_In. apply Counter_keys. }
  unfold Py.len, Py.most_common. rewrite length_map.
  destruct (Z.leb_spec (vocab_size - 1) 0) as [Hle|Hgt]; simpl List.length.
  - lia.
  - rewrite length_firstn, Hdistinct. lia.
Qed.

(** When ["<PAD>"] is not a corpus token it is a new, last entry. *)
Lemma build_vocab_fresh :
  ~ In PAD all_tokens ->
  build_vocab all_tokens vocab_size
  = map (fun iw : Z * string => (snd iw, fst iw + 1))
        (Py.enumerate
           (map fst (Py.most_common (Py.Counter all_tokens)
                                    (vocab_size - 1))))
      ++ [(PAD, 0)].
Proof.
  intros Hpad.
  destruct (build_vocab_cases all_tokens vocab_size)
    as [[_ Heq]|(d1 & v' & d2 & Hd & _)]; [exact Heq|].
  exfalso. apply Hpad, kept_words_in_corpus.
  assert (Hkeys : Py.keys
                    (map (fun iw : Z * string => (snd iw, fst iw + 1))
                         (Py.enumerate
                            (map fst (Py.most_common (Py.Counter all_tokens)
                                                     (vocab_size - 1)))))
                  = map fst (Py.most_common (Py.Counter all_tokens)
                                            (vocab_size - 1))).
  { unfold Py.keys, Py.enumerate. rewrite map_map. simpl.
    apply map_snd_enumerate_from. }
  rewrite <- Hkeys, Hd. unfold Py.keys. rewrite map_app. simpl.
  apply in_app_iff. right. now left.
Qed.

Lemma build_vocab_len :
  ~ In PAD all_tokens ->
  Py.len (build_vocab all_tokens vocab_size)
  = Py.len (map fst (Py.most_common (Py.Counter all_tokens)
                                    (vocab_size - 1))) + 1.
Proof.
  intros Hpad. rewrite (build_vocab_fresh Hpad), len_app.
  unfold Py.len, Py.enumerate. simpl.
  rewrite length_map, <- (length_map snd), map_snd_enumerate_from.
  reflexivity.
Qed.

(** Every identifier of the vocabulary is below its size. *)
Lemma build_vocab_values_below v :
  ~ In PAD all_tokens ->
  In v (Py.values (build_vocab all_tokens vocab_size)) ->
  0 <= v < Py.len (build_vocab all_tokens vocab_size).
Proof.
  intros Hpad Hv. rewrite (build_vocab_len Hpad).
  apply in_map_iff in Hv. destruct Hv as ([w i] & Heq & Hin).
  simpl in Heq. subst i.
  pose proof (len_nonneg (map fst (Py.most_common (Py.Counter all_tokens)
                                                  (vocab_size - 1)))).
  destruct (string_dec w PAD) as [->|Hne].
  - apply In_lookup in Hin.
    + rewrite build_vocab_pad in Hin. injection Hin as <-. lia.
    + rewrite (build_vocab_fresh Hpad). unfold Py.keys.
      rewrite map_app, map_map. simpl. unfold Py.enumerate.
      rewrite map_snd_enumerate_from.
      apply NoDup_app.
      * apply most_common_words, Counter_NoDup.
      * repeat constructor. tauto.
      * intros a Ha [<-|[]]. apply Hpad. now apply kept_words_in_corpus.
  - apply build_vocab_rank in Hin; [|assumption].
    destruct Hin as [Hi Hnth].
    assert (Hlt : (Z.to_nat (v - 1) < List.length
                     (map fst (Py.most_common (Py.Counter all_tokens)
                                              (vocab_size - 1))))%nat).
    { apply nth_error_Some. congruence. }
    unfold Py.len. lia.
Qed.
End VocabularySize.

(** X6: the vocabulary keeps the most frequent words: every vocabulary
    word other than ["<PAD>"] occurs in the corpus, and it occurs at least
    as often as any corpus word that was left out. *)
Theorem vocabulary_keeps_most_frequent
        (all_tokens : list string) (vocab_size : Z) (w : string) :
  Py.lookup String.eqb (build_vocab all_tokens vocab_size) w <> None ->
  w <> PAD ->
  In w all_tokens
  /\ forall w',
       In w' all_tokens ->
       Py.lookup String.eqb (build_vocab all_tokens vocab_size) w' = None ->
       Z.of_nat (count_occ string_dec all_tokens w')
       <= Z.of_nat (count_occ string_dec all_tokens w).
Proof.
  intros Hw Hpad.
  apply lookup_not_None_In in Hw. destruct Hw as [i Hw].
  apply build_vocab_rank in Hw; [|assumption]. destruct Hw as [_ Hnth].
  apply nth_error_In in Hnth.
  split; [now apply (kept_words_in_corpus all_tokens vocab_size)|].
  intros w' Hw' Hout.
  apply (kept_words_most_frequent all_tokens vocab_size);
    [assumption|assumption|].
  intros Hkept. apply In_nth_error in Hkept. destruct Hkept as [n Hn].
  assert (Hw'pad : w' <> PAD).
  { intros ->. rewrite build_vocab_pad in Hout. discriminate. }
  assert (Hin : In (w', Z.of_nat n + 1) (build_vocab all_tokens vocab_size)).
  { apply build_vocab_rank; [assumption|]. split; [lia|].
    now replace (Z.to_nat (Z.of_nat n + 1 - 1)) with n by lia. }
  apply lookup_None_keys in Hout. apply Hout.
  apply in_map_iff. now exists (w', Z.of_nat n + 1).
Qed.

Lemma vocabulary_keeps_most_frequent_witness :
  (In "b"%string ["a"; "b"; "a"; "c"; "b"; "a"]%string
   /\ Z.of_nat (count_occ string_dec ["a"; "b"; "a"; "c"; "b"; "a"]%string
                          "c"%string)
      <= Z.of_nat (count_occ string_dec ["a"; "b"; "a"; "c"; "b"; "a"]%string
                             "b"%string))
  /\ In "b"%string ["a"; "b"; "a"]%string.
Proof.
  split.
  - destruct (vocabulary_keeps_most_frequent
                ["a"; "b"; "a"; "c"; "b"; "a"]%string 3 "b"%string)
      as [Hin Hfreq].
    + vm_compute. discriminate.
    + vm_compute. discriminate.
    + split; [exact Hin|]. apply Hfreq.
      * vm_compute. tauto.
      * vm_compute. reflexivity.
  - apply (vocabulary_keeps_most_frequent ["a"; "b"; "a"]%string 10
                                          "b"%string).
    + vm_compute. discriminate.
    + vm_compute. discriminate.
Defined.

(** X8: when ["<PAD>"] is not itself a corpus token and [vocab_size >= 1],
    the vocabulary has [min (vocab_size - 1) d + 1] entries, [d] being the
    number of distinct corpus tokens, and its identifiers are exactly
    [0 .. len(vocab) - 1], with no gap. *)
Theorem vocabulary_dense (all_tokens : list string) (vocab_size : Z) :
  1 <= vocab_size -> ~ In PAD all_tokens ->
  Py.len (build_vocab all_tokens vocab_size)
  = Z.min (vocab_size - 1)
          (Z.of_nat (List.length (nodup string_dec all_tokens))) + 1
  /\ forall i,
       (exists w,
           Py.lookup String.eqb (build_vocab all_tokens vocab_size) w = Some i)
       <-> 0 <= i < Py.len (build_vocab all_tokens vocab_size).
Proof.
  intros Hsize Hpad.
  pose proof (build_vocab_len all_tokens vocab_size Hpad) as Hlen.
  split.
  { rewrite Hlen, kept_words_len. lia. }
  intros i. split.
  - intros [w Hw]. apply (lookup_some_In String.eqb string_eqb_eq) in Hw.
    apply build_vocab_values_below; [assumption|].
    apply in_map_iff. now exists (w, i).
  - intros Hi. destruct (Z.eq_dec i 0) as [->|Hne].
    + exists PAD. apply build_vocab_pad.
    + rewrite Hlen in Hi.
      destruct (nth_error
                  (map fst (Py.most_common (Py.Counter all_tokens)
                                           (vocab_size - 1)))
                  (Z.to_nat (i - 1))) as [w|] eqn:Hnth.
      * exists w. apply In_lookup.
        -- now apply build_vocab_props.
        -- apply build_vocab_rank.
           ++ intros ->. apply Hpad.
              apply (kept_words_in_corpus all_tokens vocab_size).
              eapply nth_error_In. eassumption.
           ++ split; [lia|assumption].
      * exfalso. apply nth_error_None in Hnth. unfold Py.len in Hi. lia.
Qed.

Lemma vocabulary_dense_witness :
  Py.len (build_vocab ["a"; "b"; "a"; "c"; "b"; "a"]%string 3)
  = Z.min (3 - 1)
          (Z.of_nat (List.length
                       (nodup string_dec
                              ["a"; "b"; "a"; "c"; "b"; "a"]%string))) + 1.
Proof.
  apply (vocabulary_dense ["a"; "b"; "a"; "c"; "b"; "a"]%string 3).
  - lia.
  - vm_compute. intros H. repeat (destruct H as [H|H]; [discriminate|]).
    exact H.
Defined.

(** ** More on the sequences of [preprocess_text] *)

Lemma In_slice {A : Type} (l : list A) start stop x :
  In x (Py.slice l start stop) -> In x l.
Proof.
  unfold Py.slice. intros Hin. apply In_firstn in Hin.
  rewrite <- (firstn_skipn
                (Z.to_nat match start with
                          | Some i => Py.adjust_index (Py.len l) i
                          | None => 0
                          end) l).
  apply in_app_iff. now right.
Qed.

Lemma windows_subset (token_ids : list Z) seq_length raw s x :
  windows token_ids seq_length = Some raw ->
  In s raw -> In x s -> In x token_ids.
Proof.
  unfold windows.
  destruct (Py.range 0 (Py.len token_ids - seq_length) seq_length)
    as [starts|]; [|discriminate].
  intros [= <-] Hs Hx. apply in_map_iff in Hs.
  destruct Hs as (i & <- & _). now apply In_slice in Hx.
Qed.

(** X9: every identifier in every returned sequence is an identifier of the
    returned vocabulary; when ["<PAD>"] is not a corpus token it is
    therefore a valid class index below [len(vocab)], as the one-hot
    encoding of the targets needs. *)
Theorem sequence_identifiers_in_vocabulary
        (word_tokenize : string -> list string) (lower : string -> string)
        (texts : list string) (vocab_size seq_length max_sequences : Z)
        (sequences : list (list Z)) (vocab : Py.dict string Z)
        (s : list Z) (id : Z) :
  preprocess_text word_tokenize lower texts vocab_size seq_length
                  max_sequences = Some (sequences, vocab) ->
  In s sequences -> In id s ->
  In id (Py.values vocab)
  /\ (~ In PAD (all_tokens_of word_tokenize lower texts) ->
      0 <= id < Py.len vocab).
Proof.
  unfold preprocess_text. cbv zeta.
  set (all_tokens := all_tokens_of word_tokenize lower texts).
  set (built := build_vocab all_tokens vocab_size).
  destruct (windows _ seq_length) as [raw|] eqn:Hraw; [|discriminate].
  intros [= <- <-] Hs Hid.
  assert (Hzero : In 0 (Py.values built)).
  { apply in_map_iff. exists (PAD, 0). split; [reflexivity|].
    apply (lookup_some_In String.eqb string_eqb_eq), build_vocab_pad. }
  assert (Hvalue : In id (Py.values built)).
  { apply in_map_iff in Hs. destruct Hs as (s0 & <- & Hs0).
    apply In_slice in Hs0. unfold pad_sequence in Hid.
    apply in_app_iff in Hid. destruct Hid as [Hid|Hid].
    - pose proof (windows_subset _ _ _ _ _ Hraw Hs0 Hid) as Htok.
      apply in_map_iff in Htok. destruct Htok as (token & <- & _).
      unfold Py.get.
      destruct (Py.lookup String.eqb built token) as [v|] eqn:E;
        [|exact Hzero].
      apply in_map_iff. exists (token, v). split; [reflexivity|].
      now apply (lookup_some_In String.eqb string_eqb_eq).
    - apply repeat_spec in Hid. now subst id. }
  split; [exact Hvalue|].
  intros Hpad. now apply build_vocab_values_below.
Qed.

Lemma sequence_identifiers_in_vocabulary_witness :
  In 2 (Py.values [("a", 1); ("b", 2); ("d", 3); ("<PAD>", 0)]%string).
Proof.
  apply (sequence_identifiers_in_vocabulary Sample.word_tokenize Sample.lower
           ["a b a c b a d d"; "a"]%string 4 3 10
           [[1; 2; 1]; [0; 2; 1]]
           [("a", 1); ("b", 2); ("d", 3); ("<PAD>", 0)]%string
           [1; 2; 1] 2).
  - vm_compute. reflexivity.
  - simpl. tauto.
  - simpl. tauto.
Defined.

(** X10: for [seq_length >= 1] and [max_sequences >= 0] the number of
    sequences is [min max_sequences ((T - 1) div seq_length)], [T >= 1]
    being the number of corpus tokens (none for [T = 0]), and the [k]-th
    sequence is [token_ids[k * seq_length : (k + 1) * seq_length]].  So a
    corpus of exactly [m * seq_length] tokens gives [m - 1] sequences. *)
Theorem sequences_count
        (word_tokenize : string -> list string) (lower : string -> string)
        (texts : list string) (vocab_size seq_length max_sequences : Z) :
  1 <= seq_length -> 0 <= max_sequences ->
  let all_tokens := all_tokens_of word_tokenize lower texts in
  let vocab := build_vocab all_tokens vocab_size in
  let token_ids :=
    map (fun token => Py.get String.eqb vocab token 0) all_tokens in
  exists sequences,
    preprocess_text word_tokenize lower texts vocab_size seq_length
                    max_sequences = Some (sequences, vocab)
    /\ Py.len sequences
       = Z.min max_sequences
               (if Py.len all_tokens =? 0 then 0
                else (Py.len all_tokens - 1) / seq_length)
    /\ forall k,
         (k < List.length sequences)%nat ->
         nth k sequences []
         = Py.slice token_ids (Some (Z.of_nat k * seq_length))
                    (Some (Z.of_nat k * seq_length + seq_length)).
Proof.
  intros HL HM all_tokens vocab token_ids.
  set (count := window_count (Py.len token_ids) seq_length).
  set (kept := Nat.min (Z.to_nat max_sequences) count).
  assert (Hn : Py.len token_ids = Py.len all_tokens)
    by (unfold Py.len, token_ids; now rewrite length_map).
  assert (Hfull : Forall (fun s => Py.len s = seq_length)
                         (map (chunk seq_length token_ids) (seq 0 kept))).
  { apply chunks_full; [assumption|]. unfold kept. fold count. lia. }
  exists (map (chunk seq_length token_ids) (seq 0 kept)).
  split; [|split].
  - unfold preprocess_text. cbv zeta. fold all_tokens. fold vocab.
    fold token_ids. rewrite (windows_chunks seq_length HL).
    rewrite slice_prefix by assumption. unfold leading.
    rewrite firstn_map_seq. fold count. fold kept.
    now rewrite (map_pad_full seq_length).
  - unfold Py.len at 1. rewrite length_map, length_seq.
    unfold kept, count, window_count.
    rewrite (range_len_windows seq_length HL) by apply len_nonneg.
    rewrite Hn.
    destruct (Z.eqb_spec (Py.len all_tokens) 0) as [_|Hne]; [simpl; lia|].
    assert (0 <= (Py.len all_tokens - 1) / seq_length)
      by (apply Z.div_pos; pose proof (len_nonneg all_tokens); lia).
    lia.
  - intros k Hk. rewrite length_map, length_seq in Hk.
    rewrite nth_indep with (d' := chunk seq_length token_ids 0)
      by (now rewrite length_map, length_seq).
    rewrite (map_nth (chunk seq_length token_ids)), seq_nth by assumption.
    simpl Nat.add.
    destruct (window_count_fits seq_length HL (Py.len token_ids)
                (len_nonneg token_ids)) as (Hfit & _).
    fold count in Hfit.
    rewrite (slice_window seq_length HL) by (unfold kept in Hk; nia).
    unfold chunk. do 2 f_equal. nia.
Qed.

Lemma sequences_count_witness :
  exists sequences,
    preprocess_text Sample.word_tokenize Sample.lower
                    ["a b a c b a d d"; "a"]%string 4 3 10
    = Some (sequences, build_vocab
                         (all_tokens_of Sample.word_tokenize Sample.lower
                            ["a b a c b a d d"; "a"]%string) 4)
    /\ Py.len sequences = 2.
Proof.
  destruct (sequences_count Sample.word_tokenize Sample.lower
              ["a b a c b a d d"; "a"]%string 4 3 10 ltac:(lia) ltac:(lia))
    as (sequences & Hcall & Hlen & _).
  exists sequences. split; [exact Hcall|]. rewrite Hlen. vm_compute.
  reflexivity.
Defined.

(** X11: [preprocess_text] raises exactly when [seq_length = 0] (the zero
    step of [range]); a negative [seq_length] is accepted and gives no
    sequence at all. *)
Theorem preprocess_text_raises_iff
        (word_tokenize : string -> list string) (lower : string -> string)
        (texts : list string) (vocab_size seq_length max_sequences : Z) :
  (preprocess_text word_tokenize lower texts vocab_size seq_length
                   max_sequences = None <-> seq_length = 0)
  /\ (seq_length < 0 ->
      preprocess_text word_tokenize lower texts vocab_size seq_length
                      max_sequences
      = Some ([], build_vocab (all_tokens_of word_tokenize lower texts)
                              vocab_size)).
Proof.
  unfold preprocess_text, windows, Py.range. cbv zeta.
  set (ids := map _ (all_tokens_of word_tokenize lower texts)).
  split.
  - destruct (Z.eqb_spec seq_length 0) as [->|Hne].
    + tauto.
    + split; [discriminate|contradiction].
  - intros Hneg. pose proof (len_nonneg ids) as Hids.
    destruct (Z.eqb_spec seq_length 0) as [?|_]; [lia|].
    assert (Hlen : Py.range_len 0 (Py.len ids - seq_length) seq_length = 0).
    { unfold Py.range_len.
      destruct (Z.ltb_spec 0 seq_length) as [?|_]; [lia|].
      destruct (Z.ltb_spec (Py.len ids - seq_length) 0) as [?|_]; [lia|].
      now rewrite andb_false_r. }
    rewrite Hlen. cbn [Z.to_nat seq map].
    unfold Py.slice. now rewrite skipn_nil, firstn_nil.
Qed.

(** ** The training split *)

Lemma slice_from_one {A : Type} (s : list A) :
  Py.slice s (Some 1) None = skipn 1 s.
Proof.
  destruct s as [|x s]; [reflexivity|].
  unfold Py.slice, Py.adjust_index, Py.len.
  change (1 <? 0) with false. cbv iota.
  replace (Z.min 1 (Z.of_nat (List.length (x :: s)))) with 1
    by (simpl List.length; lia).
  apply firstn_all2. rewrite length_skipn. simpl List.length. lia.
Qed.

Lemma slice_to_minus_one {A : Type} (s : list A) :
  Py.slice s None (Some (- 1)) = firstn (List.length s - 1) s.
Proof. rewrite slice_drop_last by lia. reflexivity. Qed.

Lemma Forall2_map_self {A B : Type} (R : A -> B -> Prop) (f : A -> B) l :
  (forall x, In x l -> R x (f x)) -> Forall2 R l (map f l).
Proof.
  induction l as [|x l IH]; intros H; simpl; constructor.
  - apply H. now left.
  - apply IH. intros y Hy. apply H. now right.
Qed.

Lemma nth_skipn_one {A : Type} (s : list A) j d :
  nth j (skipn 1 s) d = nth (S j) s d.
Proof. destruct s as [|x s]; [now destruct j|reflexivity]. Qed.

Lemma nth_firstn_lt {A : Type} (s : list A) n j d :
  (j < n)%nat -> nth j (firstn n s) d = nth j s d.
Proof.
  revert n j. induction s as [|x s IH]; intros n j Hj.
  - now rewrite firstn_nil.
  - destruct n as [|n]; [lia|]. destruct j as [|j]; [reflexivity|].
    simpl. apply IH. lia.
Qed.

(** X12: on a non-empty list of sequences of [seq_length] identifiers the
    split succeeds; inputs and targets have [seq_length - 1] identifiers
    per row; input [j] is identifier [j] of the sequence and target [j] is
    identifier [j + 1], the one that follows input [j]. *)
Theorem train_split_next_token (sequences : list (list Z)) (seq_length : Z) :
  1 <= seq_length -> sequences <> [] ->
  Forall (fun s => Py.len s = seq_length) sequences ->
  exists X_train targets,
    train_split sequences = Some (X_train, targets)
    /\ Forall2 (fun s x =>
                  Py.len x = seq_length - 1
                  /\ forall j, (j < List.length x)%nat ->
                               nth j x 0 = nth j s 0)
               sequences X_train
    /\ Forall2 (fun s y =>
                  Py.len y = seq_length - 1
                  /\ forall j, (j < List.length y)%nat ->
                               nth j y 0 = nth (S j) s 0)
               sequences targets.
Proof.
  intros HL Hne Hfull.
  exists (map (fun s => Py.slice s None (Some (- 1))) sequences),
         (map (fun s => Py.slice s (Some 1) None) sequences).
  rewrite Forall_forall in Hfull.
  split; [destruct sequences; [contradiction|reflexivity]|]. split.
  - apply Forall2_map_self. intros s Hs. specialize (Hfull s Hs).
    rewrite slice_to_minus_one. unfold Py.len in *.
    rewrite length_firstn. split; [lia|].
    intros j Hj. apply nth_firstn_lt. lia.
  - apply Forall2_map_self. intros s Hs. specialize (Hfull s Hs).
    rewrite slice_from_one. unfold Py.len in *.
    rewrite length_skipn. split; [lia|].
    intros j _. apply nth_skipn_one.
Qed.

Lemma train_split_next_token_witness :
  exists X_train targets,
    train_split [[1; 2; 1]; [0; 2; 1]] = Some (X_train, targets)
    /\ Forall2 (fun s y =>
                  Py.len y = 3 - 1
                  /\ forall j, (j < List.length y)%nat ->
                               nth j y 0 = nth (S j) s 0)
               [[1; 2; 1]; [0; 2; 1]] targets.
Proof.
  destruct (train_split_next_token [[1; 2; 1]; [0; 2; 1]] 3)
    as (X & Y & Hsplit & _ & HY).
  - lia.
  - discriminate.
  - repeat constructor.
  - exists X, Y. split; [exact Hsplit|exact HY].
Defined.

(** X13: a corpus of at most [seq_length] tokens, one of exactly
    [seq_length] tokens included, gives no sequence, and the training split
    of the notebook then raises. *)
Theorem short_corpus_no_training_data
        (word_tokenize : string -> list string) (lower : string -> string)
        (texts : list string) (vocab_size seq_length max_sequences : Z) :
  1 <= seq_length ->
  Py.len (all_tokens_of word_tokenize lower texts) <= seq_length ->
  preprocess_text word_tokenize lower texts vocab_size seq_length
                  max_sequences
  = Some ([], build_vocab (all_tokens_of word_tokenize lower texts)
                          vocab_size)
  /\ train_split [] = None.
Proof.
  intros HL Hshort. split; [|reflexivity].
  unfold preprocess_text. cbv zeta.
  set (vocab := build_vocab _ vocab_size).
  set (ids := map _ (all_tokens_of word_tokenize lower texts)).
  assert (Hn : Py.len ids = Py.len (all_tokens_of word_tokenize lower texts))
    by (unfold Py.len, ids; now rewrite length_map).
  rewrite (windows_chunks seq_length HL).
  assert (Hcount : window_count (Py.len ids) seq_length = 0%nat).
  { unfold window_count.
    rewrite (range_len_windows seq_length HL) by apply len_nonneg.
    destruct (Z.eqb_spec (Py.len ids) 0) as [_|Hne]; [reflexivity|].
    rewrite Z.div_small; [reflexivity|].
    pose proof (len_nonneg ids). lia. }
  rewrite Hcount. cbn [seq map].
  unfold Py.slice. now rewrite skipn_nil, firstn_nil.
Qed.

Lemma short_corpus_no_training_data_witness :
  preprocess_text Sample.word_tokenize Sample.lower ["a b c"]%string 4 3 10
  = Some ([], build_vocab (all_tokens_of Sample.word_tokenize Sample.lower
                                         ["a b c"]%string) 4)
  /\ train_split [] = None.
Proof.
  apply (short_corpus_no_training_data Sample.word_tokenize Sample.lower
           ["a b c"]%string 4 3 10).
  - lia.
  - vm_compute. discriminate.
Defined.

(** ** More on [generate_text] *)

(** X14: a seed of exactly [seq_length - 1] tokens is used verbatim: the
    initial state and the first window are the tokenized seed, with nothing
    cut and nothing padded. *)
Theorem seed_window_verbatim
        (word_tokenize : string -> list string) (lower : string -> string)
        (vocab : Py.dict string Z) (seed_text : string) (seq_length : Z) :
  Py.len (seed_tokens word_tokenize lower vocab seed_text) = seq_length - 1 ->
  initial_tokens word_tokenize lower vocab seed_text seq_length
  = seed_tokens word_tokenize lower vocab seed_text
  /\ input_seq seq_length
               (initial_tokens word_tokenize lower vocab seed_text seq_length)
     = seed_tokens word_tokenize lower vocab seed_text.
Proof.
  intros Hlen.
  pose proof (len_nonneg (seed_tokens word_tokenize lower vocab seed_text)).
  assert (Hinit : initial_tokens word_tokenize lower vocab seed_text
                                 seq_length
                  = seed_tokens word_tokenize lower vocab seed_text).
  { rewrite initial_tokens_short by lia.
    replace (Z.to_nat _) with 0%nat by lia. apply app_nil_r. }
  split; [exact Hinit|].
  rewrite initial_window by lia. exact Hinit.
Qed.

Lemma seed_window_verbatim_witness :
  input_seq 3 (initial_tokens Sample.word_tokenize Sample.lower Sample.vocab
                              "save money" 3)
  = seed_tokens Sample.word_tokenize Sample.lower Sample.vocab "save money".
Proof.
  apply (seed_window_verbatim Sample.word_tokenize Sample.lower Sample.vocab
                              "save money" 3).
  vm_compute. reflexivity.
Defined.

Section RoundTrip.
Variable vocab : Py.dict string Z.
Hypothesis ids_distinct : NoDup (Py.values vocab).
Hypothesis pad_zero : Py.lookup String.eqb vocab PAD = Some 0.

Lemma inv_vocab_lookup w i :
  Py.lookup String.eqb vocab w = Some i ->
  Py.get Z.eqb (inv_vocab vocab) i PAD = w.
Proof.
  intros Hw. apply (lookup_some_In String.eqb string_eqb_eq) in Hw.
  assert (Hval : In i (Py.values vocab))
    by (apply in_map_iff; now exists (w, i)).
  pose proof (inv_vocab_present vocab i Hval) as Hinv.
  exact (NoDup_snd_inj vocab _ _ i ids_distinct Hinv Hw).
Qed.

(** Encoding a word and decoding the identifier gives the word back when
    it is in the vocabulary and ["<PAD>"] when it is not. *)
Lemma decode_encode w :
  Py.get Z.eqb (inv_vocab vocab) (Py.get String.eqb vocab w 0) PAD
  = match Py.lookup String.eqb vocab w with
    | Some _ => w
    | None => PAD
    end.
Proof.
  unfold Py.get at 2.
  destruct (Py.lookup String.eqb vocab w) as [i|] eqn:E.
  - now apply inv_vocab_lookup.
  - now apply inv_vocab_lookup.
Qed.

Lemma render_padding n : render vocab (repeat 0 n) = repeat PAD n.
Proof.
  unfold render. induction n as [|n IH]; simpl; [reflexivity|].
  rewrite IH. f_equal. now apply inv_vocab_lookup.
Qed.

Lemma render_app l1 l2 :
  render vocab (l1 ++ l2) = render vocab l1 ++ render vocab l2.
Proof. unfold render. apply map_app. Qed.
End RoundTrip.

(** X15: with a vocabulary whose identifiers are distinct and whose
    ["<PAD>"] is 0, and a seed of at most [seq_length - 1] tokens, the
    returned text is the seed's own words (a word outside the vocabulary
    shown as ["<PAD>"]), then ["<PAD>"] for each padding position, then the
    [length] generated words. *)
Theorem generate_text_echoes_seed
        (word_tokenize : string -> list string) (lower : string -> string)
        (model : list Z -> Np.tensor) (vocab : Py.dict string Z)
        (seed_text : string) (seq_length length : Z) (temperature : R) :
  NoDup (Py.values vocab) ->
  Py.lookup String.eqb vocab PAD = Some 0 ->
  well_shaped model ->
  Py.len (word_tokenize (lower seed_text)) <= seq_length - 1 ->
  exists generated,
    generate_text word_tokenize lower model vocab seed_text seq_length length
                  temperature
    = Some (Py.join " "
              (map (fun w => match Py.lookup String.eqb vocab w with
                             | Some _ => w
                             | None => PAD
                             end)
                   (word_tokenize (lower seed_text))
               ++ repeat PAD
                    (Z.to_nat (seq_length - 1
                               - Py.len (word_tokenize (lower seed_text))))
               ++ render vocab generated))
    /\ Py.len generated = Z.max length 0.
Proof.
  intros Hids Hpad Hshape Hshort.
  destruct (generate_text_run word_tokenize lower model vocab seed_text
              seq_length length temperature Hshape)
    as (gen & _ & Hlen & _ & Htext).
  exists gen. split; [|exact Hlen]. rewrite Htext. do 2 f_equal.
  assert (Hseed : Py.len (seed_tokens word_tokenize lower vocab seed_text)
                  = Py.len (word_tokenize (lower seed_text)))
    by (unfold Py.len, seed_tokens; now rewrite length_map).
  rewrite initial_tokens_short by lia.
  rewrite !render_app, render_padding by assumption.
  rewrite Hseed, <- app_assoc. f_equal.
  unfold render, seed_tokens. rewrite map_map.
  apply map_ext. intros w. now apply decode_encode.
Qed.

Lemma generate_text_echoes_seed_witness :
  exists generated,
    generate_text Sample.word_tokenize Sample.lower Sample.model Sample.vocab
                  "Save my money" 5 2 1%R
    = Some (Py.join " "
              (["save"; "<PAD>"; "money"; "<PAD>"]%string
               ++ render Sample.vocab generated))
    /\ Py.len generated = 2.
Proof.
  destruct (generate_text_echoes_seed Sample.word_tokenize Sample.lower
              Sample.model Sample.vocab "Save my money" 5 2 1%R)
    as (gen & Htext & Hlen).
  - vm_compute. repeat constructor; simpl; intuition discriminate.
  - vm_compute. reflexivity.
  - exact sample_model_well_shaped.
  - vm_compute. discriminate.
  - exists gen. split; [exact Htext|exact Hlen].
Defined.

Lemma next_token_bound (temperature : R) (pred : Np.tensor) row i :
  Py.last_item pred = Some row ->
  next_token temperature pred = Some i ->
  0 <= i < Py.len row.
Proof.
  intros Hlast Hnext. rewrite next_token_rows, Hlast in Hnext.
  apply argmax_first_max in Hnext. destruct Hnext as [Hi _].
  unfold Py.len in *. now rewrite length_map in Hi.
Qed.

(** X16: when every model output has a last row of [width] entries, every
    generated identifier lies in [0 .. width - 1]; if moreover the
    vocabulary has a word for each of these identifiers, every generated
    identifier is rendered as a vocabulary word that has it, never through
    the ["<PAD>"] default. *)
Theorem generated_identifiers_in_range
        (word_tokenize : string -> list string) (lower : string -> string)
        (model : list Z -> Np.tensor) (vocab : Py.dict string Z)
        (seed_text : string) (seq_length length : Z) (temperature : R)
        (width : Z) :
  1 <= width ->
  (forall window, exists row,
      Py.last_item (model window) = Some row /\ Py.len row = width) ->
  exists generated,
    decode_loop model (Z.to_nat length) seq_length temperature
      (initial_tokens word_tokenize lower vocab seed_text seq_length)
    = Some (initial_tokens word_tokenize lower vocab seed_text seq_length
              ++ generated)
    /\ Forall (fun id => 0 <= id < width) generated
    /\ ((forall id, 0 <= id < width -> In id (Py.values vocab)) ->
        Forall (fun id => In (Py.get Z.eqb (inv_vocab vocab) id PAD, id) vocab)
               generated).
Proof.
  intros Hwidth Hrows.
  assert (Hshape : well_shaped model).
  { intros window. destruct (Hrows window) as (row & Hlast & Hlen).
    exists row. split; [assumption|]. intros ->.
    unfold Py.len in Hlen. simpl in Hlen. lia. }
  destruct (decode_loop_total model seq_length temperature Hshape
              (Z.to_nat length)
              (initial_tokens word_tokenize lower vocab seed_text seq_length))
    as (gen & Hloop & Hlen & Hsteps).
  exists gen. split; [exact Hloop|].
  assert (Hrange : Forall (fun id => 0 <= id < width) gen).
  { apply Forall_forall. intros id Hid.
    apply (In_nth _ _ 0) in Hid. destruct Hid as (k & Hk & <-).
    rewrite Hlen in Hk. specialize (Hsteps k Hk).
    destruct (Hrows (input_seq seq_length
                       (initial_tokens word_tokenize lower vocab seed_text
                                       seq_length ++ firstn k gen)))
      as (row & Hlast & Hrow).
    rewrite <- Hrow. exact (next_token_bound _ _ _ _ Hlast Hsteps). }
  split; [exact Hrange|].
  intros Hdense. rewrite Forall_forall in Hrange. apply Forall_forall.
  intros id Hid. apply inv_vocab_present, Hdense, Hrange, Hid.
Qed.

Lemma generated_identifiers_in_range_witness :
  exists generated,
    decode_loop Sample.model (Z.to_nat 2) 4 1%R
      (initial_tokens Sample.word_tokenize Sample.lower Sample.vocab
                      "save money" 4)
    = Some (initial_tokens Sample.word_tokenize Sample.lower Sample.vocab
                           "save money" 4 ++ generated)
    /\ Forall (fun id => 0 <= id < 2) generated.
Proof.
  destruct (generated_identifiers_in_range Sample.word_tokenize Sample.lower
              Sample.model Sample.vocab "save money" 4 2 1%R 2)
    as (gen & Hloop & Hrange & _).
  - lia.
  - intros window. exists [0; 1]%R. split; reflexivity.
  - exists gen. split; [exact Hloop|exact Hrange].
Defined.

(** X17: a malformed model output is not caught: when at least one token is
    requested and the output for the first window has no position, or an
    empty last position, the call raises. *)
Theorem generate_text_model_failure
        (word_tokenize : string -> list string) (lower : string -> string)
        (model : list Z -> Np.tensor) (vocab : Py.dict string Z)
        (seed_text : string) (seq_length length : Z) (temperature : R) :
  1 <= length ->
  Py.last_item
    (model (input_seq seq_length
              (initial_tokens word_tokenize lower vocab seed_text
                              seq_length))) = None
  \/ Py.last_item
       (model (input_seq seq_length
                 (initial_tokens word_tokenize lower vocab seed_text
                                 seq_length))) = Some [] ->
  generate_text word_tokenize lower model vocab seed_text seq_length length
                temperature = None.
Proof.
  intros Hlen Hbad. unfold generate_text.
  destruct (Z.to_nat length) as [|n] eqn:Hn; [lia|].
  simpl. unfold decode_step. rewrite next_token_rows.
  destruct Hbad as [-> | ->]; reflexivity.
Qed.

Lemma generate_text_model_failure_witness :
  generate_text Sample.word_tokenize Sample.lower (fun _ => [])
                Sample.vocab "save money" 4 2 1%R = None.
Proof.
  apply (generate_text_model_failure Sample.word_tokenize Sample.lower
           (fun _ => []) Sample.vocab "save money" 4 2 1%R).
  - lia.
  - left. reflexivity.
Defined.

(** X18: asking for more tokens never changes the earlier ones: for
    [0 <= n <= m] the state after [m] passes is the state after [n] passes
    followed by [m - n] more identifiers, and the text for [m] is the text
    for [n] with [m - n] more words. *)
Theorem generate_text_prefix_stable
        (word_tokenize : string -> list string) (lower : string -> string)
        (model : list Z -> Np.tensor) (vocab : Py.dict string Z)
        (seed_text : string) (seq_length n m : Z) (temperature : R) :
  well_shaped model -> 0 <= n <= m ->
  exists state more,
    generate_text word_tokenize lower model vocab seed_text seq_length n
                  temperature
    = Some (Py.join " " (render vocab state))
    /\ generate_text word_tokenize lower model vocab seed_text seq_length m
                     temperature
       = Some (Py.join " " (render vocab state ++ render vocab more))
    /\ Py.len more = m - n.
Proof.
  intros Hshape Hnm.
  set (initial := initial_tokens word_tokenize lower vocab seed_text
                                 seq_length).
  destruct (decode_loop_total model seq_length temperature Hshape
              (Z.to_nat n) initial) as (gen & Hloop & Hlen & _).
  destruct (decode_loop_total model seq_length temperature Hshape
              (Z.to_nat m - Z.to_nat n) (initial ++ gen))
    as (more & Hmore & Hmorelen & _).
  exists (initial ++ gen), more.
  rewrite !generate_text_unfold. fold initial.
  split; [now rewrite Hloop|]. split.
  - replace (Z.to_nat m) with (Z.to_nat n + (Z.to_nat m - Z.to_nat n))%nat
      by lia.
    rewrite decode_loop_app, Hloop, Hmore. simpl.
    unfold render. now rewrite map_app.
  - unfold Py.len. lia.
Qed.

Lemma generate_text_prefix_stable_witness :
  exists state more,
    generate_text Sample.word_tokenize Sample.lower Sample.model Sample.vocab
                  "save money" 4 1 1%R
    = Some (Py.join " " (render Sample.vocab state))
    /\ generate_text Sample.word_tokenize Sample.lower Sample.model
                     Sample.vocab "save money" 4 3 1%R
       = Some (Py.join " "
                 (render Sample.vocab state ++ render Sample.vocab more))
    /\ Py.len more = 3 - 1.
Proof.
  apply (generate_text_prefix_stable Sample.word_tokenize Sample.lower
           Sample.model Sample.vocab "save money" 4 1 3 1%R).
  - exact sample_model_well_shaped.
  - lia.
Defined.

(** ** What [calculate_bleu] scores *)

Section PySplit.

Lemma pysplit_word (w : string) :
  PyStr.no_whitespace w = true ->
  forall cur rest,
    PyStr.split_from cur (w ++ rest) = PyStr.split_from (cur ++ w) rest.
Proof.
  induction w as [|c w IH]; simpl; intros Hw cur rest.
  - now rewrite append_empty_r.
  - apply andb_prop in Hw. destruct Hw as [Hc Hw].
    apply negb_true_iff in Hc. rewrite Hc, (IH Hw).
    now rewrite append_assoc_string.
Qed.

Lemma is_word_no_whitespace (w : string) :
  PyStr.is_word w = true -> PyStr.no_whitespace w = true.
Proof. destruct w; [discriminate|auto]. Qed.

(** [' '.join(words).split()] gives [words] back when no word is empty or
    contains white space. *)
Lemma pysplit_join (words : list string) :
  Forall (fun w => PyStr.is_word w = true) words ->
  PyStr.split (Py.join " " words) = words.
Proof.
  unfold PyStr.split.
  induction 1 as [|w words Hw Hwords IH]; [reflexivity|].
  destruct words as [|w' words].
  - simpl. rewrite <- (append_empty_r w) at 1.
    rewrite pysplit_word by (now apply is_word_no_whitespace).
    destruct w; [discriminate|reflexivity].
  - change (Py.join " " (w :: w' :: words))
      with (w ++ String " " (Py.join " " (w' :: words)))%string.
    rewrite pysplit_word by (now apply is_word_no_whitespace).
    simpl append at 1.
    change (PyStr.split_from w (String " " (Py.join " " (w' :: words))))
      with (match w with
            | EmptyString =>
                PyStr.split_from EmptyString (Py.join " " (w' :: words))
            | _ => w :: PyStr.split_from EmptyString
                                         (Py.join " " (w' :: words))
            end).
    rewrite IH. destruct w; [discriminate|reflexivity].
Qed.

Lemma render_is_word (vocab : Py.dict string Z) (tokens : list Z) :
  Forall (fun w => PyStr.is_word w = true) (Py.keys vocab) ->
  Forall (fun w => PyStr.is_word w = true) (render vocab tokens).
Proof.
  intros Hvocab. apply Forall_forall. intros w Hw.
  unfold render in Hw. apply in_map_iff in Hw. destruct Hw as (t & <- & _).
  destruct (in_dec Z.eq_dec t (Py.values vocab)) as [Hin|Hnin].
  - apply inv_vocab_present in Hin. rewrite Forall_forall in Hvocab.
    apply Hvocab. apply in_map_iff.
    now exists (Py.get Z.eqb (inv_vocab vocab) t PAD, t).
  - now rewrite inv_vocab_absent.
Qed.
End PySplit.

(** X19: when the model is well shaped and no vocabulary word is empty or
    contains white space, [calculate_bleu] scores, against the split
    references, a candidate of exactly 69 tokens: the 19 rendered
    identifiers of the truncated or padded seed and 50 generated ones. *)
Theorem calculate_bleu_candidate
        (word_tokenize : string -> list string) (lower : string -> string)
        (model : list Z -> Np.tensor)
        (sentence_bleu : list (list string) -> list string -> R)
        (vocab : Py.dict string Z) (seed_text : string)
        (reference_texts : list string) :
  well_shaped model ->
  Forall (fun w => PyStr.is_word w = true) (Py.keys vocab) ->
  exists generated,
    calculate_bleu word_tokenize lower model sentence_bleu vocab seed_text
                   reference_texts
    = Some (sentence_bleu
              (map PyStr.split reference_texts)
              (render vocab
                 (initial_tokens word_tokenize lower vocab seed_text 20
                    ++ generated)))
    /\ Py.len generated = 50
    /\ Py.len (render vocab
                 (initial_tokens word_tokenize lower vocab seed_text 20
                    ++ generated)) = 69.
Proof.
  intros Hshape Hvocab.
  destruct (generate_text_run word_tokenize lower model vocab seed_text
              20 50 (7 / 10)%R Hshape) as (gen & _ & Hlen & _ & Htext).
  exists gen. unfold calculate_bleu. rewrite Htext. cbv zeta.
  rewrite pysplit_join by (now apply render_is_word).
  split; [reflexivity|]. split; [exact Hlen|].
  rewrite render_len, len_app, Hlen, initial_tokens_len by lia. reflexivity.
Qed.

Lemma calculate_bleu_candidate_witness :
  exists generated,
    calculate_bleu Sample.word_tokenize Sample.lower Sample.model
                   (fun _ candidate => INR (List.length candidate))
                   Sample.vocab "save money" ["save money now"]%string
    = Some (INR (List.length
                   (render Sample.vocab
                      (initial_tokens Sample.word_tokenize Sample.lower
                                      Sample.vocab "save money" 20
                         ++ generated))))
    /\ Py.len generated = 50.
Proof.
  destruct (calculate_bleu_candidate Sample.word_tokenize Sample.lower
              Sample.model (fun _ candidate => INR (List.length candidate))
              Sample.vocab "save money" ["save money now"]%string)
    as (gen & Hbleu & Hlen & _).
  - exact sample_model_well_shaped.
  - vm_compute. repeat constructor.
  - exists gen. split; [exact Hbleu|exact Hlen].
Defined.

(** ** Worked instances *)

Lemma batches_sizes_witness :
  exists full partial,
    load_openwebtext_financial Sample.lower
      ["Tax a"; "x"; "debt b"; "money c"; "zzz"; "credit d"; "tax e"]%string 2
    = full ++ partial
    /\ Forall (fun batch => Py.len batch = 2) full
    /\ (partial = []
        \/ exists batch, partial = [batch] /\ 1 <= Py.len batch < 2).
Proof.
  apply (batches_sizes Sample.lower
           ["Tax a"; "x"; "debt b"; "money c"; "zzz"; "credit d"; "tax e"]%string
           2).
  lia.
Defined.

Lemma batches_singletons_witness :
  load_openwebtext_financial Sample.lower
    ["Tax a"; "x"; "debt b"]%string 0
  = map (fun text => [text])
        (filter (is_financial Sample.lower) ["Tax a"; "x"; "debt b"]%string).
Proof.
  apply (batches_singletons Sample.lower ["Tax a"; "x"; "debt b"]%string 0).
  lia.
Defined.

(** C4 at [seq_length = 1]: the seed is cut to no identifier, the first
    window is empty, and after one pass the state is [[1]]; the slice
    [tokens[-(seq_length - 1):]] is then [tokens[-0:]], the whole state
    [[1]], and not the last [seq_length - 1 = 0] identifiers. *)
Lemma window_at_seq_length_one :
  initial_tokens Sample.word_tokenize Sample.lower Sample.vocab
                 "save money" 1 = []
  /\ input_seq 1 [] = []
  /\ decode_loop Sample.model 1 1 (7 / 10)%R
       (initial_tokens Sample.word_tokenize Sample.lower Sample.vocab
                       "save money" 1)
     = Some [1]
  /\ input_seq 1 [1] = [1]
  /\ trailing (1 - 1) [1] = []
  /\ Py.len (input_seq 1 [1]) <> 1 - 1.
Proof.
  assert (HT : (0 < 7 / 10)%R) by lra.
  split; [vm_compute; reflexivity|]. split; [vm_compute; reflexivity|].
  split.
  - replace (initial_tokens Sample.word_tokenize Sample.lower Sample.vocab
               "save money" 1) with (@nil Z) by (vm_compute; reflexivity).
    unfold decode_loop, decode_step.
    now rewrite (sample_next_token _ _ HT).
  - split; [vm_compute; reflexivity|]. split; [vm_compute; reflexivity|].
    vm_compute. discriminate.
Qed.
